(** * ONVIF control-plane emulator: SOAP dispatcher and response builders

    Shallow embedding of [OnvifServer] from [onvif_server.cpp]: the device
    profile store, the SOAP envelope codec, the six response builders and the
    substring dispatcher [processRequest], followed by the properties of the
    dispatcher that the design document states.

    Conventions.  A [std::string] is a [string]; an [int] is a [Z] whose
    arithmetic wraps at 32 bits; [std::string::npos] is [None]; a member
    function is a function from the object to a result and the object after
    the call. *)

From Stdlib Require Import ZArith List Bool Lia.
From Stdlib Require Import Strings.String Strings.Ascii.
From Stdlib Require Import Numbers.DecimalString.
From Stdlib Require Numbers.DecimalPos Numbers.DecimalZ.
Import ListNotations.

Open Scope string_scope.
Open Scope Z_scope.

(* ===================================================================== *)
(** ** Characters and strings of the C++ runtime                          *)
(* ===================================================================== *)

(** The newline and double-quote escapes of the C++ literals. *)
Definition nl : string := String (ascii_of_nat 10) EmptyString.
Definition dq : string := String (ascii_of_nat 34) EmptyString.

(** [s.find(str)]: index of the first occurrence of [str] in [s], [None]
    for [npos]. *)
Fixpoint find (str s : string) {struct s} : option nat :=
  if prefix str s then Some 0%nat
  else match s with
       | EmptyString => None
       | String _ s' => option_map S (find str s')
       end.

(** [s.find(str) != std::string::npos]. *)
Definition found (r : option nat) : bool :=
  match r with Some _ => true | None => false end.

(** 32-bit two's complement [int]. *)
Definition int_min : Z := - 2 ^ 31.
Definition int_max : Z := 2 ^ 31 - 1.
Definition int_wrap (z : Z) : Z := (z + 2 ^ 31) mod 2 ^ 32 - 2 ^ 31.
Definition int_add (a b : Z) : Z := int_wrap (a + b).

(** [std::to_string(int)]: decimal digits, with a leading minus sign for a
    negative value. *)
Definition to_string (n : Z) : string := NilZero.string_of_int (Z.to_int n).

(** The broken-down UTC time that [std::gmtime] hands back for the instant
    read from [std::chrono::system_clock::now()]. *)
Record tm : Type := mk_tm {
  tm_sec : Z; tm_min : Z; tm_hour : Z;
  tm_mday : Z; tm_mon : Z; tm_year : Z
}.

(** Two-digit, zero-padded field of [std::put_time] ([%m %d %H %M %S]). *)
Definition put2 (n : Z) : string :=
  if n <? 10 then "0" ++ to_string n else to_string n.

(* ===================================================================== *)
(** ** The server object                                                  *)
(* ===================================================================== *)

Record MediaProfile : Type := mk_MediaProfile {
  token : string;
  name : string;
  video_encoder_token : string;
  audio_encoder_token : string;
  width : Z;
  height : Z;
  framerate : Z;
  bitrate : Z
}.

(** The data members of [class OnvifServer].  [server_socket] is left
    unassigned by the constructor, which [None] records; [server_mutex]
    is never locked and carries no data. *)
Record OnvifServer : Type := mk_OnvifServer {
  server_socket : option Z;
  port : Z;
  device_uuid : string;
  device_name : string;
  manufacturer : string;
  model : string;
  serial_number : string;
  firmware_version : string;
  media_profiles : list MediaProfile;
  running : bool
}.

(** A member function: result and object after the call. *)
Definition Method (A : Type) : Type := OnvifServer -> A * OnvifServer.

(** [media_profiles.push_back(p)]. *)
Definition push_back_profile (p : MediaProfile) (self : OnvifServer) : OnvifServer :=
  mk_OnvifServer (server_socket self) (port self) (device_uuid self)
    (device_name self) (manufacturer self) (model self) (serial_number self)
    (firmware_version self) (media_profiles self ++ [p]) (running self).

Definition initializeMediaProfiles : Method unit := fun self =>
  let profile1 :=
    {| token := "Profile_1"; name := "MainStream";
       video_encoder_token := "VideoEncoder_1";
       audio_encoder_token := "AudioEncoder_1";
       width := 1920; height := 1080; framerate := 30; bitrate := 4000000 |} in
  let profile2 :=
    {| token := "Profile_2"; name := "SubStream";
       video_encoder_token := "VideoEncoder_2";
       audio_encoder_token := "AudioEncoder_2";
       width := 640; height := 480; framerate := 15; bitrate := 1000000 |} in
  let self := push_back_profile profile1 self in
  let self := push_back_profile profile2 self in
  (tt, self).

(** The constructor [OnvifServer(int port = 8080)]. *)
Definition OnvifServer_new (port : Z) : OnvifServer :=
  let self :=
    {| server_socket := None; port := port;
       device_uuid := "urn:uuid:12345678-1234-1234-1234-123456789012";
       device_name := "ONVIF Camera";
       manufacturer := "Sample Manufacturer";
       model := "Sample Model";
       serial_number := "123456789";
       firmware_version := "1.0.0";
       media_profiles := [];
       running := false |} in
  snd (initializeMediaProfiles self).

(* ===================================================================== *)
(** ** Envelope codec and response builders                               *)
(* ===================================================================== *)

(** [getCurrentTime]: the live clock as [%Y-%m-%dT%H:%M:%SZ]. *)
Definition getCurrentTime (now : tm) : Method string := fun self =>
  (to_string (tm_year now + 1900) ++ "-" ++ put2 (tm_mon now + 1) ++ "-" ++
   put2 (tm_mday now) ++ "T" ++ put2 (tm_hour now) ++ ":" ++
   put2 (tm_min now) ++ ":" ++ put2 (tm_sec now) ++ "Z", self).

Definition generateSoapEnvelope (body : string) : string :=
  "<?xml version=" ++ dq ++ "1.0" ++ dq ++ " encoding=" ++ dq ++ "UTF-8" ++ dq ++ "?>" ++ nl ++
  "<SOAP-ENV:Envelope xmlns:SOAP-ENV=" ++ dq ++ "http://www.w3.org/2003/05/soap-envelope" ++ dq ++ " " ++
  "xmlns:tds=" ++ dq ++ "http://www.onvif.org/ver10/device/wsdl" ++ dq ++ " " ++
  "xmlns:trt=" ++ dq ++ "http://www.onvif.org/ver10/media/wsdl" ++ dq ++ " " ++
  "xmlns:tptz=" ++ dq ++ "http://www.onvif.org/ver20/ptz/wsdl" ++ dq ++ ">" ++ nl ++
  "<SOAP-ENV:Body>" ++ nl ++ body ++ "</SOAP-ENV:Body>" ++ nl ++
  "</SOAP-ENV:Envelope>".

Definition handleGetDeviceInformation : Method string := fun self =>
  let body :=
    "<tds:GetDeviceInformationResponse>" ++ nl ++
    "<tds:Manufacturer>" ++ manufacturer self ++ "</tds:Manufacturer>" ++ nl ++
    "<tds:Model>" ++ model self ++ "</tds:Model>" ++ nl ++
    "<tds:FirmwareVersion>" ++ firmware_version self ++ "</tds:FirmwareVersion>" ++ nl ++
    "<tds:SerialNumber>" ++ serial_number self ++ "</tds:SerialNumber>" ++ nl ++
    "<tds:HardwareId>" ++ device_uuid self ++ "</tds:HardwareId>" ++ nl ++
    "</tds:GetDeviceInformationResponse>" in
  (generateSoapEnvelope body, self).

Definition handleGetCapabilities : Method string := fun self =>
  let body :=
    "<tds:GetCapabilitiesResponse>" ++ nl ++
    "<tds:Capabilities>" ++ nl ++
    "<tds:Device>" ++ nl ++
    "<tds:XAddr>http://localhost:" ++ to_string (port self) ++ "/onvif/device_service</tds:XAddr>" ++ nl ++
    "<tds:Network>" ++ nl ++
    "<tds:IPFilter>false</tds:IPFilter>" ++ nl ++
    "<tds:ZeroConfiguration>false</tds:ZeroConfiguration>" ++ nl ++
    "<tds:IPVersion6>false</tds:IPVersion6>" ++ nl ++
    "<tds:DynDNS>false</tds:DynDNS>" ++ nl ++
    "</tds:Network>" ++ nl ++
    "<tds:System>" ++ nl ++
    "<tds:DiscoveryResolve>false</tds:DiscoveryResolve>" ++ nl ++
    "<tds:DiscoveryBye>false</tds:DiscoveryBye>" ++ nl ++
    "<tds:RemoteDiscovery>false</tds:RemoteDiscovery>" ++ nl ++
    "<tds:SystemBackup>false</tds:SystemBackup>" ++ nl ++
    "<tds:SystemLogging>false</tds:SystemLogging>" ++ nl ++
    "<tds:FirmwareUpgrade>false</tds:FirmwareUpgrade>" ++ nl ++
    "</tds:System>" ++ nl ++
    "<tds:IO>" ++ nl ++
    "<tds:InputConnectors>0</tds:InputConnectors>" ++ nl ++
    "<tds:RelayOutputs>0</tds:RelayOutputs>" ++ nl ++
    "</tds:IO>" ++ nl ++
    "<tds:Security>" ++ nl ++
    "<tds:TLS1.1>false</tds:TLS1.1>" ++ nl ++
    "<tds:TLS1.2>true</tds:TLS1.2>" ++ nl ++
    "<tds:OnboardKeyGeneration>false</tds:OnboardKeyGeneration>" ++ nl ++
    "<tds:AccessPolicyConfig>false</tds:AccessPolicyConfig>" ++ nl ++
    "<tds:X.509Token>false</tds:X.509Token>" ++ nl ++
    "<tds:SAMLToken>false</tds:SAMLToken>" ++ nl ++
    "<tds:KerberosToken>false</tds:KerberosToken>" ++ nl ++
    "<tds:RELToken>false</tds:RELToken>" ++ nl ++
    "</tds:Security>" ++ nl ++
    "</tds:Device>" ++ nl ++
    "<tds:Media>" ++ nl ++
    "<tds:XAddr>http://localhost:" ++ to_string (port self) ++ "/onvif/media_service</tds:XAddr>" ++ nl ++
    "<tds:StreamingCapabilities>" ++ nl ++
    "<tds:RTPMulticast>false</tds:RTPMulticast>" ++ nl ++
    "<tds:RTP_TCP>true</tds:RTP_TCP>" ++ nl ++
    "<tds:RTP_RTSP_TCP>true</tds:RTP_RTSP_TCP>" ++ nl ++
    "</tds:StreamingCapabilities>" ++ nl ++
    "</tds:Media>" ++ nl ++
    "<tds:PTZ>" ++ nl ++
    "<tds:XAddr>http://localhost:" ++ to_string (port self) ++ "/onvif/ptz_service</tds:XAddr>" ++ nl ++
    "</tds:PTZ>" ++ nl ++
    "</tds:Capabilities>" ++ nl ++
    "</tds:GetCapabilitiesResponse>" in
  (generateSoapEnvelope body, self).

(** One turn of the loop of [handleGetProfiles]: the text appended to
    [profiles_xml] for [profile]. *)
Definition profile_xml (profile : MediaProfile) : string :=
  "<trt:Profiles token=" ++ dq ++ token profile ++ dq ++ " fixed=" ++ dq ++ "true" ++ dq ++ ">" ++ nl ++
  "<trt:Name>" ++ name profile ++ "</trt:Name>" ++ nl ++
  "<trt:VideoSourceConfiguration token=" ++ dq ++ "VideoSource_1" ++ dq ++ " fixed=" ++ dq ++ "true" ++ dq ++ ">" ++ nl ++
  "<trt:Name>VideoSourceConfig</trt:Name>" ++ nl ++
  "<trt:UseCount>2</trt:UseCount>" ++ nl ++
  "<trt:SourceToken>VideoSource_1</trt:SourceToken>" ++ nl ++
  "<trt:Bounds x=" ++ dq ++ "0" ++ dq ++ " y=" ++ dq ++ "0" ++ dq ++ " width=" ++ dq ++ to_string (width profile) ++ dq ++ " height=" ++ dq ++ to_string (height profile) ++ dq ++ "/>" ++ nl ++
  "</trt:VideoSourceConfiguration>" ++ nl ++
  "<trt:VideoEncoderConfiguration token=" ++ dq ++ video_encoder_token profile ++ dq ++ " fixed=" ++ dq ++ "true" ++ dq ++ ">" ++ nl ++
  "<trt:Name>VideoEncoderConfig</trt:Name>" ++ nl ++
  "<trt:UseCount>1</trt:UseCount>" ++ nl ++
  "<trt:Encoding>H264</trt:Encoding>" ++ nl ++
  "<trt:Resolution>" ++ nl ++
  "<trt:Width>" ++ to_string (width profile) ++ "</trt:Width>" ++ nl ++
  "<trt:Height>" ++ to_string (height profile) ++ "</trt:Height>" ++ nl ++
  "</trt:Resolution>" ++ nl ++
  "<trt:Quality>1</trt:Quality>" ++ nl ++
  "<trt:RateControl>" ++ nl ++
  "<trt:FrameRateLimit>" ++ to_string (framerate profile) ++ "</trt:FrameRateLimit>" ++ nl ++
  "<trt:EncodingInterval>1</trt:EncodingInterval>" ++ nl ++
  "<trt:BitrateLimit>" ++ to_string (bitrate profile) ++ "</trt:BitrateLimit>" ++ nl ++
  "</trt:RateControl>" ++ nl ++
  "<trt:H264>" ++ nl ++
  "<trt:GovLength>30</trt:GovLength>" ++ nl ++
  "<trt:H264Profile>Baseline</trt:H264Profile>" ++ nl ++
  "</trt:H264>" ++ nl ++
  "</trt:VideoEncoderConfiguration>" ++ nl ++
  "</trt:Profiles>" ++ nl.

Definition handleGetProfiles : Method string := fun self =>
  let profiles_xml :=
    fold_left (fun profiles_xml profile => profiles_xml ++ profile_xml profile)
              (media_profiles self) EmptyString in
  let body :=
    "<trt:GetProfilesResponse>" ++ nl ++ profiles_xml ++ "</trt:GetProfilesResponse>" in
  (generateSoapEnvelope body, self).

Definition handleGetStreamUri : Method string := fun self =>
  let body :=
    "<trt:GetStreamUriResponse>" ++ nl ++
    "<trt:MediaUri>" ++ nl ++
    "<trt:Uri>rtsp://localhost:" ++ to_string (int_add (port self) 1) ++ "/stream1</trt:Uri>" ++ nl ++
    "<trt:InvalidAfterConnect>false</trt:InvalidAfterConnect>" ++ nl ++
    "<trt:InvalidAfterReboot>false</trt:InvalidAfterReboot>" ++ nl ++
    "<trt:Timeout>PT60S</trt:Timeout>" ++ nl ++
    "</trt:MediaUri>" ++ nl ++
    "</trt:GetStreamUriResponse>" in
  (generateSoapEnvelope body, self).

Definition handleGetSystemDateAndTime (now : tm) : Method string := fun self =>
  let '(current_time, self) := getCurrentTime now self in
  let body :=
    "<tds:GetSystemDateAndTimeResponse>" ++ nl ++
    "<tds:SystemDateAndTime>" ++ nl ++
    "<tds:DateTimeType>Manual</tds:DateTimeType>" ++ nl ++
    "<tds:DaylightSavings>false</tds:DaylightSavings>" ++ nl ++
    "<tds:TimeZone>" ++ nl ++
    "<tds:TZ>UTC</tds:TZ>" ++ nl ++
    "</tds:TimeZone>" ++ nl ++
    "<tds:UTCDateTime>" ++ nl ++
    "<tds:Time>" ++ nl ++
    "<tds:Hour>12</tds:Hour>" ++ nl ++
    "<tds:Minute>0</tds:Minute>" ++ nl ++
    "<tds:Second>0</tds:Second>" ++ nl ++
    "</tds:Time>" ++ nl ++
    "<tds:Date>" ++ nl ++
    "<tds:Year>2024</tds:Year>" ++ nl ++
    "<tds:Month>1</tds:Month>" ++ nl ++
    "<tds:Day>1</tds:Day>" ++ nl ++
    "</tds:Date>" ++ nl ++
    "</tds:UTCDateTime>" ++ nl ++
    "</tds:SystemDateAndTime>" ++ nl ++
    "</tds:GetSystemDateAndTimeResponse>" in
  (generateSoapEnvelope body, self).

Definition handlePTZGetConfigurations : Method string := fun self =>
  let body :=
    "<tptz:GetConfigurationsResponse>" ++ nl ++
    "<tptz:PTZConfiguration token=" ++ dq ++ "PTZConfig_1" ++ dq ++ ">" ++ nl ++
    "<tptz:Name>PTZ Configuration</tptz:Name>" ++ nl ++
    "<tptz:UseCount>1</tptz:UseCount>" ++ nl ++
    "<tptz:NodeToken>PTZNode_1</tptz:NodeToken>" ++ nl ++
    "<tptz:DefaultAbsolutePantTiltPositionSpace>http://www.onvif.org/ver10/tptz/PanTiltSpaces/PositionGenericSpace</tptz:DefaultAbsolutePantTiltPositionSpace>" ++ nl ++
    "<tptz:DefaultAbsoluteZoomPositionSpace>http://www.onvif.org/ver10/tptz/ZoomSpaces/PositionGenericSpace</tptz:DefaultAbsoluteZoomPositionSpace>" ++ nl ++
    "<tptz:DefaultRelativePanTiltTranslationSpace>http://www.onvif.org/ver10/tptz/PanTiltSpaces/TranslationGenericSpace</tptz:DefaultRelativePanTiltTranslationSpace>" ++ nl ++
    "<tptz:DefaultRelativeZoomTranslationSpace>http://www.onvif.org/ver10/tptz/ZoomSpaces/TranslationGenericSpace</tptz:DefaultRelativeZoomTranslationSpace>" ++ nl ++
    "<tptz:DefaultContinuousPanTiltVelocitySpace>http://www.onvif.org/ver10/tptz/PanTiltSpaces/VelocityGenericSpace</tptz:DefaultContinuousPanTiltVelocitySpace>" ++ nl ++
    "<tptz:DefaultContinuousZoomVelocitySpace>http://www.onvif.org/ver10/tptz/ZoomSpaces/VelocityGenericSpace</tptz:DefaultContinuousZoomVelocitySpace>" ++ nl ++
    "<tptz:DefaultPTZSpeed>" ++ nl ++
    "<tptz:PanTilt x=" ++ dq ++ "1.0" ++ dq ++ " y=" ++ dq ++ "1.0" ++ dq ++ " space=" ++ dq ++ "http://www.onvif.org/ver10/tptz/PanTiltSpaces/GenericSpeedSpace" ++ dq ++ "/>" ++ nl ++
    "<tptz:Zoom x=" ++ dq ++ "1.0" ++ dq ++ " space=" ++ dq ++ "http://www.onvif.org/ver10/tptz/ZoomSpaces/ZoomGenericSpeedSpace" ++ dq ++ "/>" ++ nl ++
    "</tptz:DefaultPTZSpeed>" ++ nl ++
    "<tptz:DefaultPTZTimeout>PT5S</tptz:DefaultPTZTimeout>" ++ nl ++
    "<tptz:PanTiltLimits>" ++ nl ++
    "<tptz:Range>" ++ nl ++
    "<tptz:URI>http://www.onvif.org/ver10/tptz/PanTiltSpaces/PositionGenericSpace</tptz:URI>" ++ nl ++
    "<tptz:XRange>" ++ nl ++
    "<tptz:Min>-1.0</tptz:Min>" ++ nl ++
    "<tptz:Max>1.0</tptz:Max>" ++ nl ++
    "</tptz:XRange>" ++ nl ++
    "<tptz:YRange>" ++ nl ++
    "<tptz:Min>-1.0</tptz:Min>" ++ nl ++
    "<tptz:Max>1.0</tptz:Max>" ++ nl ++
    "</tptz:YRange>" ++ nl ++
    "</tptz:Range>" ++ nl ++
    "</tptz:PanTiltLimits>" ++ nl ++
    "<tptz:ZoomLimits>" ++ nl ++
    "<tptz:Range>" ++ nl ++
    "<tptz:URI>http://www.onvif.org/ver10/tptz/ZoomSpaces/PositionGenericSpace</tptz:URI>" ++ nl ++
    "<tptz:XRange>" ++ nl ++
    "<tptz:Min>0.0</tptz:Min>" ++ nl ++
    "<tptz:Max>1.0</tptz:Max>" ++ nl ++
    "</tptz:XRange>" ++ nl ++
    "</tptz:Range>" ++ nl ++
    "</tptz:ZoomLimits>" ++ nl ++
    "</tptz:PTZConfiguration>" ++ nl ++
    "</tptz:GetConfigurationsResponse>" in
  (generateSoapEnvelope body, self).

(** The body of the default error response of [processRequest]. *)
Definition fault_body : string :=
  "<SOAP-ENV:Fault>" ++ nl ++
  "<SOAP-ENV:Code>" ++ nl ++
  "<SOAP-ENV:Value>SOAP-ENV:Receiver</SOAP-ENV:Value>" ++ nl ++
  "</SOAP-ENV:Code>" ++ nl ++
  "<SOAP-ENV:Reason>" ++ nl ++
  "<SOAP-ENV:Text>Method not implemented</SOAP-ENV:Text>" ++ nl ++
  "</SOAP-ENV:Reason>" ++ nl ++
  "</SOAP-ENV:Fault>".

(** [processRequest], at the instant [now] of the system clock. *)
Definition processRequest (now : tm) (request : string) : Method string := fun self =>
  if found (find "GetDeviceInformation" request) then
    handleGetDeviceInformation self
  else if found (find "GetCapabilities" request) then
    handleGetCapabilities self
  else if found (find "GetProfiles" request) then
    handleGetProfiles self
  else if found (find "GetStreamUri" request) then
    handleGetStreamUri self
  else if found (find "GetSystemDateAndTime" request) then
    handleGetSystemDateAndTime now self
  else if found (find "GetConfigurations" request) then
    handlePTZGetConfigurations self
  else
    let body := fault_body in
    (generateSoapEnvelope body, self).

(** The branch that [processRequest] takes, as a value. *)
Inductive Operation : Type :=
  | GetDeviceInformation
  | GetCapabilities
  | GetProfiles
  | GetStreamUri
  | GetSystemDateAndTime
  | PTZGetConfigurations
  | Unrecognized.

Definition classify (request : string) : Operation :=
  if found (find "GetDeviceInformation" request) then GetDeviceInformation
  else if found (find "GetCapabilities" request) then GetCapabilities
  else if found (find "GetProfiles" request) then GetProfiles
  else if found (find "GetStreamUri" request) then GetStreamUri
  else if found (find "GetSystemDateAndTime" request) then GetSystemDateAndTime
  else if found (find "GetConfigurations" request) then PTZGetConfigurations
  else Unrecognized.

(** The builder that [processRequest] runs for each branch. *)
Definition respond (now : tm) (op : Operation) : Method string :=
  match op with
  | GetDeviceInformation => handleGetDeviceInformation
  | GetCapabilities => handleGetCapabilities
  | GetProfiles => handleGetProfiles
  | GetStreamUri => handleGetStreamUri
  | GetSystemDateAndTime => handleGetSystemDateAndTime now
  | PTZGetConfigurations => handlePTZGetConfigurations
  | Unrecognized => fun self => (generateSoapEnvelope fault_body, self)
  end.

(** A run of the server: the requests are served one after the other, each
    at its own instant; the responses and the object after the last one. *)
Fixpoint serve (reqs : list (tm * string)) (self : OnvifServer)
  : list string * OnvifServer :=
  match reqs with
  | [] => ([], self)
  | (now, request) :: reqs' =>
      let '(response, self) := processRequest now request self in
      let '(responses, self) := serve reqs' self in
      (response :: responses, self)
  end.

(* ===================================================================== *)
(** ** Reading a response as text                                         *)
(* ===================================================================== *)

(** [pat] occurs in [s]. *)
Definition Substring (pat s : string) : Prop :=
  exists pre post, s = pre ++ pat ++ post.

(** Number of characters of [s] at which an occurrence of [pat] starts. *)
Fixpoint occurrences (pat s : string) {struct s} : nat :=
  match s with
  | EmptyString => 0%nat
  | String _ s' => ((if prefix pat s then 1 else 0) + occurrences pat s')%nat
  end.

(** [strip pat s]: [s] without its prefix [pat]. *)
Fixpoint strip (pat s : string) : string :=
  match pat, s with
  | String _ pat', String _ s' => strip pat' s'
  | _, _ => s
  end.

(** The text of [s] after, and before, the first occurrence of [pat]. *)
Fixpoint after (pat s : string) {struct s} : option string :=
  if prefix pat s then Some (strip pat s)
  else match s with
       | EmptyString => None
       | String _ s' => after pat s'
       end.

Fixpoint before (pat s : string) {struct s} : option string :=
  if prefix pat s then Some EmptyString
  else match s with
       | EmptyString => None
       | String c s' => option_map (String c) (before pat s')
       end.

(** Character content of the first element [<tag>...</tag>] of [s]. *)
Definition element_text (tag s : string) : option string :=
  match after ("<" ++ tag ++ ">") s with
  | Some rest => before ("</" ++ tag ++ ">") rest
  | None => None
  end.

(** The text of [s] up to the first character [stop] (all of [s] when there
    is none). *)
Fixpoint upto (stop : ascii) (s : string) : string :=
  match s with
  | EmptyString => EmptyString
  | String c s' => if Ascii.eqb c stop then EmptyString else String c (upto stop s')
  end.

(** The values that follow the occurrences of [marker] in [s], each read up
    to the character [stop], in the order of the occurrences. *)
Fixpoint values_after (marker : string) (stop : ascii) (s : string) {struct s}
  : list string :=
  match s with
  | EmptyString => []
  | String _ s' =>
      if prefix marker s
      then upto stop (strip marker s) :: values_after marker stop s'
      else values_after marker stop s'
  end.

(** The [token] attributes of the [trt:Profiles] start tags of a response,
    and the namespace prefixes that a start tag declares. *)
Definition profiles_marker : string := "<trt:Profiles token=" ++ dq.
Definition profile_tokens (response : string) : list string :=
  values_after profiles_marker (ascii_of_nat 34) response.
Definition declared_prefixes (attrs : string) : list string :=
  values_after "xmlns:" "="%char attrs.

(** The attributes of the start tag of the root element of an envelope. *)
Definition root_attributes (response : string) : option string :=
  match after "<SOAP-ENV:Envelope " response with
  | Some rest => before ">" rest
  | None => None
  end.

(** [c] does not occur in [s]. *)
Fixpoint lacks (c : ascii) (s : string) : bool :=
  match s with
  | EmptyString => true
  | String a s' => negb (Ascii.eqb a c) && lacks c s'
  end.

(** [pat] and [s] differ at a position that both have: [pat] is then not a
    prefix of [s], whatever text is appended to [s]. *)
Fixpoint mismatch (pat s : string) : bool :=
  match pat, s with
  | String a pat', String b s' => if Ascii.eqb a b then mismatch pat' s' else true
  | _, _ => false
  end.

(** No occurrence of [pat] starts inside [s], whatever text follows [s]. *)
Fixpoint clear (pat s : string) : bool :=
  match s with
  | EmptyString => true
  | String _ s' => mismatch pat s && clear pat s'
  end.

(** At every position of [s], whether [pat] starts there is settled by the
    characters of [s] alone. *)
Fixpoint decisive (pat s : string) : bool :=
  match s with
  | EmptyString => true
  | String _ s' => (prefix pat s || mismatch pat s) && decisive pat s'
  end.

(** A concatenation of literal and variable pieces, and its normal form: a
    right-nested concatenation in which adjacent literals are merged. *)
Inductive pieces : Type :=
  | Lit (s : string)
  | Var (s : string)
  | Cat (a b : pieces).

Fixpoint denote (t : pieces) : string :=
  match t with
  | Lit s => s
  | Var s => s
  | Cat a b => denote a ++ denote b
  end.

Inductive piece : Type :=
  | PLit (s : string)
  | PVar (s : string).

Definition cons_piece (p : piece) (l : list piece) : list piece :=
  match p, l with
  | PLit a, PLit b :: l' => PLit (a ++ b) :: l'
  | _, _ => p :: l
  end.

Fixpoint flatten (t : pieces) (acc : list piece) : list piece :=
  match t with
  | Lit s => cons_piece (PLit s) acc
  | Var s => PVar s :: acc
  | Cat a b => flatten a (flatten b acc)
  end.

Fixpoint render (l : list piece) : string :=
  match l with
  | [] => EmptyString
  | [PLit s] => s
  | [PVar s] => s
  | PLit s :: l' => s ++ render l'
  | PVar s :: l' => s ++ render l'
  end.

(** The six operation names, in the order in which [processRequest] tries
    them. *)
Definition operation_name (op : Operation) : option string :=
  match op with
  | GetDeviceInformation => Some "GetDeviceInformation"
  | GetCapabilities => Some "GetCapabilities"
  | GetProfiles => Some "GetProfiles"
  | GetStreamUri => Some "GetStreamUri"
  | GetSystemDateAndTime => Some "GetSystemDateAndTime"
  | PTZGetConfigurations => Some "GetConfigurations"
  | Unrecognized => None
  end.

Definition precedence : list Operation :=
  [GetDeviceInformation; GetCapabilities; GetProfiles; GetStreamUri;
   GetSystemDateAndTime; PTZGetConfigurations].

Definition piece_text (p : piece) : string :=
  match p with PLit s => s | PVar s => s end.

(** The element reached from [s] by descending through the elements named
    in [path], outermost first. *)
Fixpoint element_path (path : list string) (s : string) : option string :=
  match path with
  | [] => Some s
  | tag :: path' =>
      match element_text tag s with
      | Some inner => element_path path' inner
      | None => None
      end
  end.

(** First match wins: [FirstMatch request ops op] holds when [op] is the
    first operation of [ops] whose name occurs in [request], and
    [Unrecognized] when there is none. *)
Inductive FirstMatch (request : string) : list Operation -> Operation -> Prop :=
  | FirstMatch_none : FirstMatch request [] Unrecognized
  | FirstMatch_hit op n ops :
      operation_name op = Some n -> Substring n request ->
      FirstMatch request (op :: ops) op
  | FirstMatch_skip op n ops res :
      operation_name op = Some n -> ~ Substring n request ->
      FirstMatch request ops res ->
      FirstMatch request (op :: ops) res.

Definition all_operations : list Operation := precedence ++ [Unrecognized].

(** A profile whose strings can be told apart from the markup around them:
    no [<] in the token, the name and the video encoder token, and no
    double quote in the token. *)
Definition plain_profile (p : MediaProfile) : bool :=
  lacks "<" (token p) && lacks (ascii_of_nat 34) (token p) &&
  lacks "<" (name p) && lacks "<" (video_encoder_token p).

(** A string that an XML reader takes as it is written, in an attribute
    value as in the content of an element: printable ASCII characters, and
    none of the characters of markup, of an entity reference or of a
    quotation. *)
Definition xml_plain_char (c : ascii) : bool :=
  (32 <=? nat_of_ascii c)%nat && (nat_of_ascii c <=? 126)%nat &&
  negb (Ascii.eqb c "<") && negb (Ascii.eqb c ">") &&
  negb (Ascii.eqb c "&") && negb (Ascii.eqb c (ascii_of_nat 34)) &&
  negb (Ascii.eqb c "'").

Fixpoint xml_plain (s : string) : bool :=
  match s with
  | EmptyString => true
  | String c s' => xml_plain_char c && xml_plain s'
  end.

(** A profile whose strings, as [handleGetProfiles] writes them, are read
    back unchanged by an XML reader. *)
Definition xml_plain_profile (p : MediaProfile) : bool :=
  xml_plain (token p) && xml_plain (name p) &&
  xml_plain (video_encoder_token p).

(** The profile text that the loop of [handleGetProfiles] leaves in
    [profiles_xml]. *)
Fixpoint profiles_text (ps : list MediaProfile) : string :=
  match ps with
  | [] => EmptyString
  | p :: ps' => profile_xml p ++ profiles_text ps'
  end.

(** An [int] whose successor is an [int]. *)
Definition has_successor (p : Z) : Prop := int_min <= p < int_max.

(** Where the fault and the date and time sit in a response. *)
Definition fault_path (p : list string) : list string :=
  ["SOAP-ENV:Body"; "SOAP-ENV:Fault"] ++ p.
Definition date_time_path (p : list string) : list string :=
  ["SOAP-ENV:Body"; "tds:GetSystemDateAndTimeResponse";
   "tds:SystemDateAndTime"] ++ p.
Definition media_uri_path (p : list string) : list string :=
  ["SOAP-ENV:Body"; "trt:GetStreamUriResponse"; "trt:MediaUri"] ++ p.

(** The two profiles of [initializeMediaProfiles]. *)
Definition MainStream : MediaProfile :=
  mk_MediaProfile "Profile_1" "MainStream" "VideoEncoder_1" "AudioEncoder_1"
                  1920 1080 30 4000000.
Definition SubStream : MediaProfile :=
  mk_MediaProfile "Profile_2" "SubStream" "VideoEncoder_2" "AudioEncoder_2"
                  640 480 15 1000000.

Definition positive_profile (p : MediaProfile) : Prop :=
  0 < width p /\ 0 < height p /\ 0 < framerate p /\ 0 < bitrate p.

(** What [generateSoapEnvelope] writes before the Body element. *)
Definition envelope_head : string :=
  "<?xml version=" ++ dq ++ "1.0" ++ dq ++ " encoding=" ++ dq ++ "UTF-8" ++ dq ++ "?>" ++ nl ++
  "<SOAP-ENV:Envelope xmlns:SOAP-ENV=" ++ dq ++ "http://www.w3.org/2003/05/soap-envelope" ++ dq ++ " " ++
  "xmlns:tds=" ++ dq ++ "http://www.onvif.org/ver10/device/wsdl" ++ dq ++ " " ++
  "xmlns:trt=" ++ dq ++ "http://www.onvif.org/ver10/media/wsdl" ++ dq ++ " " ++
  "xmlns:tptz=" ++ dq ++ "http://www.onvif.org/ver20/ptz/wsdl" ++ dq ++ ">" ++ nl.

(** The first characters of the Body of a response. *)
Definition body_start (response : string) : string :=
  substring (String.length envelope_head + 16) 12 response.

(** A request for each branch of [processRequest]. *)
Definition sample_request (op : Operation) : string :=
  match operation_name op with
  | Some n => "<" ++ n ++ "/>"
  | None => "garbage"
  end.

(** The tail of a string. *)
Definition tail (s : string) : string :=
  match s with EmptyString => EmptyString | String _ s' => s' end.

(** Some instants of the clock. *)
Definition noon_2024 : tm := mk_tm 0 0 12 1 0 124.
Definition epoch : tm := mk_tm 0 0 0 1 0 70.

(* ===================================================================== *)
(** ** The transport: [handleClient], [start] and [stop]                  *)
(* ===================================================================== *)

(** The carriage return escape of the C++ literals, and the zero byte that
    ends a C string. *)
Definition cr : string := String (ascii_of_nat 13) EmptyString.
Definition NUL : ascii := ascii_of_nat 0.

(** What the server does that can be seen from outside: lines on the
    console and calls of the socket interface, with the result of a call
    where the code looks at it. *)
Inductive event : Type :=
  | Cout (text : string)
  | Cerr (text : string)
  | Socket (result : Z)
  | Setsockopt (fd : Z)
  | Bind (fd sin_port result : Z)
  | Listen (fd backlog result : Z)
  | Read (fd count result : Z)
  | Send (fd : Z) (data : string)
  | Close (fd : Z).

(** A call of [read]: it fails, or it delivers bytes, none at the end of the
    stream and never more than it was asked for. *)
Inductive read_outcome : Type :=
  | read_failed
  | read_delivered (data : string).

Definition delivered (count : nat) (r : read_outcome) : string :=
  match r with
  | read_failed => EmptyString
  | read_delivered data => substring 0 count data
  end.

Definition read_result (count : nat) (r : read_outcome) : Z :=
  match r with
  | read_failed => -1
  | read_delivered _ => Z.of_nat (String.length (delivered count r))
  end.

(** [handleClient], at the instant [now], when [read] on the client socket
    has the outcome [r].  The buffer of 4096 bytes is zeroed and [read] fills
    at most 4095 of them, so the C string in it is what was delivered up to
    its first zero byte. *)
Definition handleClient (now : tm) (client_socket : Z) (r : read_outcome)
  : Method (list event) := fun self =>
  let buffer := delivered 4095 r in
  let bytes_read := read_result 4095 r in
  if bytes_read >? 0 then
    let request := upto NUL buffer in
    let '(soap_response, self) := processRequest now request self in
    let http_response :=
      "HTTP/1.1 200 OK" ++ cr ++ nl ++
      "Content-Type: application/soap+xml; charset=utf-8" ++ cr ++ nl ++
      "Content-Length: " ++ to_string (Z.of_nat (String.length soap_response)) ++ cr ++ nl ++
      "Connection: close" ++ cr ++ nl ++
      cr ++ nl ++ soap_response in
    ([Read client_socket 4095 bytes_read;
      Cout ("Received request:" ++ nl ++ request ++ nl ++ nl);
      Send client_socket http_response;
      Cout ("Sent response:" ++ nl ++ http_response ++ nl ++ nl);
      Close client_socket], self)
  else
    ([Read client_socket 4095 bytes_read; Close client_socket], self).

Definition set_server_socket (fd : Z) (self : OnvifServer) : OnvifServer :=
  mk_OnvifServer (Some fd) (port self) (device_uuid self)
    (device_name self) (manufacturer self) (model self) (serial_number self)
    (firmware_version self) (media_profiles self) (running self).

Definition set_running (b : bool) (self : OnvifServer) : OnvifServer :=
  mk_OnvifServer (server_socket self) (port self) (device_uuid self)
    (device_name self) (manufacturer self) (model self) (serial_number self)
    (firmware_version self) (media_profiles self) b.

(** The port number that [htons(port)] carries: the [int] is converted to
    the 16 bits of its parameter. *)
Definition htons (port : Z) : Z := port mod 65536.

(** [start], when [socket], [bind] and [listen] return [socket_r], [bind_r]
    and [listen_r]; a call that is not reached returns nothing. *)
Definition start (socket_r bind_r listen_r : Z) : Method (bool * list event) :=
  fun self =>
  let self := set_server_socket socket_r self in
  if socket_r <? 0 then
    ((false, [Socket socket_r; Cerr ("Error creating socket" ++ nl)]), self)
  else if bind_r <? 0 then
    ((false, [Socket socket_r; Setsockopt socket_r;
              Bind socket_r (htons (port self)) bind_r;
              Cerr ("Bind failed" ++ nl); Close socket_r]), self)
  else if listen_r <? 0 then
    ((false, [Socket socket_r; Setsockopt socket_r;
              Bind socket_r (htons (port self)) bind_r;
              Listen socket_r 5 listen_r;
              Cerr ("Listen failed" ++ nl); Close socket_r]), self)
  else
    let self := set_running true self in
    ((true, [Socket socket_r; Setsockopt socket_r;
             Bind socket_r (htons (port self)) bind_r;
             Listen socket_r 5 listen_r;
             Cout ("ONVIF Server started on port " ++ to_string (port self) ++ nl);
             Cout ("Device Service: http://localhost:" ++ to_string (port self) ++ "/onvif/device_service" ++ nl);
             Cout ("Media Service: http://localhost:" ++ to_string (port self) ++ "/onvif/media_service" ++ nl);
             Cout ("PTZ Service: http://localhost:" ++ to_string (port self) ++ "/onvif/ptz_service" ++ nl)]),
     self).

(** [stop], which the destructor calls.  It tests [server_socket]; when no
    value was ever assigned to that member the test has no defined outcome,
    which [None] records. *)
Definition stop (self : OnvifServer) : option (list event * OnvifServer) :=
  let self := set_running false self in
  match server_socket self with
  | None => None
  | Some fd => Some (if fd >=? 0 then [Close fd] else [], self)
  end.

(** Reading a response of the transport: the value of a header line and the
    text after the blank line. *)
Definition http_header (field http : string) : option string :=
  match after (field ++ ": ") http with
  | Some rest => before (cr ++ nl) rest
  | None => None
  end.

Definition http_body (http : string) : option string :=
  after (cr ++ nl ++ cr ++ nl) http.

(** What a trace sends and what it closes. *)
Fixpoint sent (trace : list event) : list string :=
  match trace with
  | [] => []
  | Send _ data :: trace' => data :: sent trace'
  | _ :: trace' => sent trace'
  end.

Fixpoint closed (trace : list event) : list Z :=
  match trace with
  | [] => []
  | Close fd :: trace' => fd :: closed trace'
  | _ :: trace' => closed trace'
  end.

(** The decimal number that a string spells. *)
Definition read_int (s : string) : option Z :=
  option_map Z.of_int (NilEmpty.int_of_string s).

(** The place of an operation in the order of [processRequest]. *)
Definition rank (op : Operation) : nat :=
  match op with
  | GetDeviceInformation => 0
  | GetCapabilities => 1
  | GetProfiles => 2
  | GetStreamUri => 3
  | GetSystemDateAndTime => 4
  | PTZGetConfigurations => 5
  | Unrecognized => 6
  end.

(** Where the device information and the capabilities sit in a response. *)
Definition device_information_path (p : list string) : list string :=
  ["SOAP-ENV:Body"; "tds:GetDeviceInformationResponse"] ++ p.
Definition capabilities_path (p : list string) : list string :=
  ["SOAP-ENV:Body"; "tds:GetCapabilitiesResponse"; "tds:Capabilities"] ++ p.

(** An instant that [gmtime] can return for a year of four digits. *)
Definition calendar_time (t : tm) : Prop :=
  1000 <= tm_year t + 1900 <= 9999 /\
  0 <= tm_mon t <= 11 /\ 1 <= tm_mday t <= 31 /\
  0 <= tm_hour t <= 23 /\ 0 <= tm_min t <= 59 /\ 0 <= tm_sec t <= 60.

(* ===================================================================== *)
(** ** The frame-capture tool [rtsp_screenshot.cpp]                       *)
(* ===================================================================== *)

(** The calendar date of a day counted from 1970-01-01, and the UTC record
    of an instant counted in seconds from then; and a local time to try the
    tool on, that of Europe/Berlin around the end of summer time in 2024:
    two hours ahead of UTC before 2024-10-27 01:00:00 UTC, one hour after. *)
Definition civil_from_days (days : Z) : Z * Z * Z :=
  let z := days + 719468 in
  let era := z / 146097 in
  let doe := z - era * 146097 in
  let yoe := (doe - doe / 1460 + doe / 36524 - doe / 146096) / 365 in
  let doy := doe - (365 * yoe + yoe / 4 - yoe / 100) in
  let mp := (5 * doy + 2) / 153 in
  let d := doy - (153 * mp + 2) / 5 + 1 in
  let m := if mp <? 10 then mp + 3 else mp - 9 in
  let y := yoe + era * 400 + (if m <=? 2 then 1 else 0) in
  (y, m, d).

Definition gmtime (t : Z) : tm :=
  let '(y, m, d) := civil_from_days (t / 86400) in
  let s := t mod 86400 in
  mk_tm (s mod 60) (s / 60 mod 60) (s / 3600) d (m - 1) (y - 1900).

Definition berlin_autumn_2024 (t : Z) : tm :=
  gmtime (t + (if t <? 1729990800 then 7200 else 3600)).

Module Rtsp.

(** A line written to [std::cout] or to [std::cerr]. *)
Inductive line : Type :=
  | cout (text : string)
  | cerr (text : string).

(** The part of OpenCV that the tool calls.  A [VideoCapture] is the state
    of a capture object, with the stream it is connected to; a [Disk] is the
    state of the file system that [cv::imwrite] writes to.  Nothing is
    assumed of these operations. *)
Class OpenCV : Type := {
  Mat : Type;
  VideoCapture : Type;
  Disk : Type;
  Mat_new : Mat;
  VideoCapture_new : VideoCapture;
  mat_empty : Mat -> bool;
  mat_cols : Mat -> Z;
  mat_rows : Mat -> Z;
  cap_open : string -> VideoCapture -> VideoCapture;
  cap_isOpened : VideoCapture -> bool;
  cap_set : Z -> Z -> VideoCapture -> VideoCapture;
  cap_read : VideoCapture -> Mat * VideoCapture;
  cap_release : VideoCapture -> VideoCapture;
  imwrite : string -> Mat -> Disk -> bool * Disk;
  CAP_PROP_BUFFERSIZE : Z;
  CAP_PROP_OPEN_TIMEOUT_MSEC : Z
}.

(** [s.substr(pos, len)], with [None] as [len] for [npos]: it throws
    [std::out_of_range], here [None], when [pos] is beyond the end of [s]. *)
Definition substr (s : string) (pos : nat) (len : option nat) : option string :=
  if (pos <=? String.length s)%nat
  then Some (substring pos
               (match len with Some n => n | None => String.length s end) s)
  else None.

(** [s.empty()]. *)
Definition is_empty (s : string) : bool :=
  match s with EmptyString => true | String _ _ => false end.

(** [strftime] with the format [%Y%m%d_%H%M%S] into [timestamp], for the
    record [t] that it is given. *)
Definition timestamp (t : tm) : string :=
  to_string (tm_year t + 1900) ++ put2 (tm_mon t + 1) ++ put2 (tm_mday t) ++
  "_" ++ put2 (tm_hour t) ++ put2 (tm_min t) ++ put2 (tm_sec t).

(** The file name that [displayStream] builds when a screenshot is asked
    for at the instant [now] of the system clock, in seconds;
    [localtime] is the conversion that [std::localtime] makes in the time
    zone of the process. *)
Definition filename (localtime : Z -> tm) (now : Z) : string :=
  let tm := localtime now in
  "screenshot_" ++ timestamp tm ++ ".jpg".

Section Program.

Context {cv : OpenCV}.

Record RTSPScreenshot : Type := mk_RTSPScreenshot {
  cap : VideoCapture;
  rtspUrl : string;
  username : string;
  password : string
}.

Definition set_cap (c : VideoCapture) (self : RTSPScreenshot) : RTSPScreenshot :=
  mk_RTSPScreenshot c (rtspUrl self) (username self) (password self).

(** The two constructors. *)
Definition RTSPScreenshot_url (url : string) : RTSPScreenshot :=
  mk_RTSPScreenshot VideoCapture_new url EmptyString EmptyString.
Definition RTSPScreenshot_new (url user pass : string) : RTSPScreenshot :=
  mk_RTSPScreenshot VideoCapture_new url user pass.

(** The second half of [connect], from [cap.open(finalUrl)] on, after the
    lines [out] have been written: the result, all the lines written and
    the object after the call. *)
Definition open_stream (finalUrl : string) (out : list line)
           (self : RTSPScreenshot) : bool * list line * RTSPScreenshot :=
  let cap := cap_open finalUrl (cap self) in
  if negb (cap_isOpened cap) then
    (false,
     List.app out
       [cerr ("Error: Could not open RTSP stream!" ++ nl);
        cerr ("Check URL, credentials, and network connectivity." ++ nl)],
     set_cap cap self)
  else
    let cap := cap_set CAP_PROP_BUFFERSIZE 1 cap in
    let cap := cap_set CAP_PROP_OPEN_TIMEOUT_MSEC 10000 cap in
    (true,
     List.app out [cout ("Successfully connected to RTSP stream" ++ nl)],
     set_cap cap self).

(** [connect]; [None] when an exception leaves the function. *)
Definition connect (self : RTSPScreenshot)
  : option (bool * list line * RTSPScreenshot) :=
  if negb (is_empty (username self)) && negb (is_empty (password self)) then
    match find "://" (rtspUrl self) with
    | Some protocolEnd =>
        match substr (rtspUrl self) 0 (Some (protocolEnd + 3)%nat) with
        | Some protocol =>
            match substr (rtspUrl self) (protocolEnd + 3) None with
            | Some remainder =>
                Some (open_stream
                        (protocol ++ username self ++ ":" ++ password self ++
                         "@" ++ remainder)
                        [cout ("Connecting to RTSP stream with authentication..." ++ nl)]
                        self)
            | None => None
            end
        | None => None
        end
    | None =>
        Some (false, [cerr ("Error: Invalid RTSP URL format!" ++ nl)], self)
    end
  else
    Some (open_stream (rtspUrl self)
            [cout ("Connecting to RTSP stream: " ++ rtspUrl self ++ nl)] self).

(** The loop of [captureScreenshot]: [n] frames are read one after the
    other, and the loop is left at the first empty one.  The pause between
    two frames is not part of the model. *)
Fixpoint grab (n : nat) (frame : Mat) (cap : VideoCapture)
  : bool * Mat * VideoCapture :=
  match n with
  | O => (true, frame, cap)
  | S n' =>
      let '(frame, cap) := cap_read cap in
      if mat_empty frame then (false, frame, cap) else grab n' frame cap
  end.

Definition captureScreenshot (filename : string) (self : RTSPScreenshot)
           (disk : Disk) : bool * list line * RTSPScreenshot * Disk :=
  if negb (cap_isOpened (cap self)) then
    (false, [cerr ("Error: RTSP stream is not open!" ++ nl)], self, disk)
  else
    let '(ok, frame, cap) := grab 5 Mat_new (cap self) in
    let self := set_cap cap self in
    if negb ok then
      (false, [cerr ("Error: Could not capture frame from stream!" ++ nl)],
       self, disk)
    else
      let '(saved, disk) := imwrite filename frame disk in
      if saved then
        (true,
         [cout ("Screenshot saved successfully: " ++ filename ++ nl);
          cout ("Image size: " ++ to_string (mat_cols frame) ++ "x" ++
                to_string (mat_rows frame) ++ nl)],
         self, disk)
      else
        (false, [cerr ("Error: Could not save screenshot!" ++ nl)], self, disk).

(** [disconnect], which the destructor calls. *)
Definition disconnect (self : RTSPScreenshot) : list line * RTSPScreenshot :=
  if cap_isOpened (cap self) then
    ([cout ("Disconnected from RTSP stream" ++ nl)],
     set_cap (cap_release (cap self)) self)
  else ([], self).

(** The capture object after [k] reads, and the frame of the last one. *)
Fixpoint reads (k : nat) (cap : VideoCapture) : VideoCapture :=
  match k with
  | O => cap
  | S k' => snd (cap_read (reads k' cap))
  end.

Definition frame_at (k : nat) (cap : VideoCapture) : Mat :=
  fst (cap_read (reads k cap)).

End Program.

(** The local variables of [main] that its argument loop assigns, and the
    loop, over [argv] from [argv[2]] on.  An option that takes a value is
    one that has an argument after it ([i + 1 < argc]); the value is
    skipped by the loop ([++i]). *)
Module Main.

Record locals : Type := mk_locals {
  outputFile : string;
  username : string;
  password : string;
  displayMode : bool
}.

Definition initial : locals :=
  mk_locals "screenshot.jpg" EmptyString EmptyString false.

Definition set_username (v : string) (l : locals) : locals :=
  mk_locals (outputFile l) v (password l) (displayMode l).
Definition set_password (v : string) (l : locals) : locals :=
  mk_locals (outputFile l) (username l) v (displayMode l).
Definition set_outputFile (v : string) (l : locals) : locals :=
  mk_locals v (username l) (password l) (displayMode l).
Definition set_displayMode (b : bool) (l : locals) : locals :=
  mk_locals (outputFile l) (username l) (password l) b.

Fixpoint parse_arguments (args : list string) (l : locals) : locals :=
  match args with
  | [] => l
  | arg :: rest =>
      match rest with
      | value :: rest' =>
          if (arg =? "--user")%string then
            parse_arguments rest' (set_username value l)
          else if (arg =? "--pass")%string then
            parse_arguments rest' (set_password value l)
          else if (arg =? "--output")%string then
            parse_arguments rest' (set_outputFile value l)
          else if (arg =? "--display")%string then
            parse_arguments rest (set_displayMode true l)
          else parse_arguments rest l
      | [] =>
          if (arg =? "--display")%string then set_displayMode true l else l
      end
  end.

(** The arguments at which the loop looks for an option: those that it
    does not skip as the value of an option before them. *)
Fixpoint option_places (args : list string) : list string :=
  match args with
  | [] => []
  | arg :: rest =>
      match rest with
      | value :: rest' =>
          if ((arg =? "--user") || (arg =? "--pass") || (arg =? "--output"))%string
          then arg :: option_places rest'
          else arg :: option_places rest
      | [] => [arg]
      end
  end.

(** The loop does not stop inside [args]: the last argument of [args] is
    not an option that waits for its value. *)
Fixpoint complete (args : list string) : bool :=
  match args with
  | [] => true
  | arg :: rest =>
      match rest with
      | value :: rest' =>
          if ((arg =? "--user") || (arg =? "--pass") || (arg =? "--output"))%string
          then complete rest'
          else complete rest
      | [] =>
          negb ((arg =? "--user") || (arg =? "--pass") || (arg =? "--output"))%string
      end
  end.

End Main.

(** The object that [main] builds from [argv[1]] and the arguments after
    it. *)
Definition main_object {cv : OpenCV} (url : string) (args : list string)
  : RTSPScreenshot :=
  let l := Main.parse_arguments args Main.initial in
  RTSPScreenshot_new url (Main.username l) (Main.password l).

(** A capture library to try the tool on: a stream is a list of frames, a
    frame is its number of pixels, and a URL opens when it starts with
    [rtsp://]. *)
Definition trial : OpenCV := {|
  Mat := nat;
  VideoCapture := bool * list nat;
  Disk := list (string * nat);
  Mat_new := 0%nat;
  VideoCapture_new := (false, []);
  mat_empty := fun m => Nat.eqb m 0;
  mat_cols := fun m => Z.of_nat m;
  mat_rows := fun _ => 1;
  cap_open := fun url c =>
    if prefix "rtsp://" url then (true, [1; 2; 3; 4; 5; 6; 7]%nat) else (false, []);
  cap_isOpened := fun c => fst c;
  cap_set := fun _ _ c => c;
  cap_read := fun c =>
    match snd c with
    | [] => (0%nat, c)
    | f :: fs => (f, (fst c, fs))
    end;
  cap_release := fun c => (false, []);
  imwrite := fun name m d => (true, (name, m) :: d);
  CAP_PROP_BUFFERSIZE := 38;
  CAP_PROP_OPEN_TIMEOUT_MSEC := 53
|}.

End Rtsp.

(* ===================================================================== *)
(** ** Lemmas on strings                                                  *)
(* ===================================================================== *)

Lemma append_nil_r (s : string) : s ++ EmptyString = s.
Proof. induction s as [|c s IH]; simpl; [reflexivity | now rewrite IH]. Qed.

Lemma append_assoc_r (a b c : string) : (a ++ b) ++ c = a ++ b ++ c.
Proof. induction a as [|x a IH]; simpl; [reflexivity | now rewrite IH]. Qed.

Lemma prefix_append (m t : string) : prefix m (m ++ t) = true.
Proof.
  induction m as [|a m IH]; simpl.
  - now destruct t.
  - destruct (ascii_dec a a) as [_|ne]; [exact IH | now elim ne].
Qed.

Lemma strip_append (m t : string) : strip m (m ++ t) = t.
Proof. induction m as [|a m IH]; simpl; [now destruct t | exact IH]. Qed.

Lemma prefix_split (m s : string) : prefix m s = true -> s = m ++ strip m s.
Proof.
  revert s; induction m as [|a m IH]; intros [|b s]; simpl; try easy.
  destruct (ascii_dec a b) as [->|_]; [|discriminate].
  intros H; f_equal; now apply IH.
Qed.

Lemma prefix_mono (m l t : string) :
  prefix m l = true -> prefix m (l ++ t) = true.
Proof.
  intros H. rewrite (prefix_split _ _ H), append_assoc_r. apply prefix_append.
Qed.

Lemma strip_mono (m l t : string) :
  prefix m l = true -> strip m (l ++ t) = strip m l ++ t.
Proof.
  intros H. rewrite (prefix_split _ _ H) at 1.
  now rewrite append_assoc_r, strip_append.
Qed.

Lemma mismatch_prefix (m l t : string) :
  mismatch m l = true -> prefix m (l ++ t) = false.
Proof.
  revert l; induction m as [|a m IH]; intros [|b l]; simpl; try discriminate.
  destruct (ascii_dec a b) as [->|ne].
  - rewrite Ascii.eqb_refl. apply IH.
  - reflexivity.
Qed.

Lemma mismatch_prefix_nil (m l : string) :
  mismatch m l = true -> prefix m l = false.
Proof. intros H. rewrite <- (append_nil_r l). now apply mismatch_prefix. Qed.

Lemma settled_prefix (m l t : string) :
  prefix m l || mismatch m l = true -> prefix m (l ++ t) = prefix m l.
Proof.
  destruct (prefix m l) eqn:Hp; simpl; intros H.
  - now apply prefix_mono.
  - now apply mismatch_prefix.
Qed.

(** *** [find] and occurrence *)

Lemma found_option_map (r : option nat) : found (option_map S r) = found r.
Proof. now destruct r. Qed.

Lemma find_cons (pat : string) (c : ascii) (s : string) :
  found (find pat (String c s)) = prefix pat (String c s) || found (find pat s).
Proof.
  unfold find at 1; fold find.
  destruct (prefix pat (String c s)); [reflexivity | apply found_option_map].
Qed.

Lemma find_prefix (pat s : string) :
  prefix pat s = true -> find pat s = Some 0%nat.
Proof. intros H. destruct s; unfold find; now rewrite H. Qed.

Lemma found_find_append (pre pat post : string) :
  found (find pat (pre ++ pat ++ post)) = true.
Proof.
  induction pre as [|c pre IH].
  - change (EmptyString ++ pat ++ post) with (pat ++ post).
    now rewrite find_prefix by apply prefix_append.
  - change (String c pre ++ pat ++ post) with (String c (pre ++ pat ++ post)).
    rewrite find_cons, IH. apply orb_true_r.
Qed.

Lemma found_find_Substring (pat s : string) :
  found (find pat s) = true -> Substring pat s.
Proof.
  induction s as [|c s IH].
  - unfold find. destruct (prefix pat EmptyString) eqn:Hp; [|discriminate].
    intros _. exists EmptyString, (strip pat EmptyString).
    now apply prefix_split.
  - rewrite find_cons. intros H. apply orb_prop in H as [Hp|Hf].
    + exists EmptyString, (strip pat (String c s)). now apply prefix_split.
    + destruct (IH Hf) as (pre & post & ->).
      now exists (String c pre), post.
Qed.

Lemma found_find_iff (pat s : string) :
  found (find pat s) = true <-> Substring pat s.
Proof.
  split; [apply found_find_Substring|].
  intros (pre & post & ->). apply found_find_append.
Qed.

Lemma not_found_find_iff (pat s : string) :
  found (find pat s) = false <-> ~ Substring pat s.
Proof.
  rewrite <- found_find_iff. destruct (found (find pat s)); split; intros H;
    try discriminate; try reflexivity. now elim H.
Qed.

(** *** Scanning a concatenation *)

Lemma occurrences_app (m l t : string) :
  decisive m l = true ->
  occurrences m (l ++ t) = (occurrences m l + occurrences m t)%nat.
Proof.
  induction l as [|c l IH]; intros H; [reflexivity|].
  simpl in H. apply andb_prop in H as [Hs Hd].
  change (String c l ++ t) with (String c (l ++ t)).
  unfold occurrences; fold occurrences.
  change (String c (l ++ t)) with (String c l ++ t) at 1.
  rewrite (settled_prefix _ _ t Hs), (IH Hd). lia.
Qed.

Lemma after_app (m l t : string) :
  decisive m l = true ->
  after m (l ++ t) =
  match after m l with Some r => Some (r ++ t) | None => after m t end.
Proof.
  induction l as [|c l IH]; intros H.
  - simpl. destruct m; [|reflexivity]. simpl. now destruct t.
  - simpl in H. apply andb_prop in H as [Hs Hd].
    change (String c l ++ t) with (String c (l ++ t)).
    unfold after; fold after.
    change (String c (l ++ t)) with (String c l ++ t).
    rewrite (settled_prefix _ _ t Hs).
    destruct (prefix m (String c l)) eqn:Hp.
    + now rewrite strip_mono.
    + change (String c l ++ t) with (String c (l ++ t)). now apply IH.
Qed.

Lemma before_app (m l t : string) :
  decisive m l = true ->
  before m (l ++ t) =
  match before m l with
  | Some r => Some r
  | None => option_map (append l) (before m t)
  end.
Proof.
  induction l as [|c l IH]; intros H.
  - simpl. destruct m; simpl; [now destruct t|].
    now destruct (before (String a m) t).
  - simpl in H. apply andb_prop in H as [Hs Hd].
    change (String c l ++ t) with (String c (l ++ t)).
    unfold before; fold before.
    change (String c (l ++ t)) with (String c l ++ t).
    rewrite (settled_prefix _ _ t Hs).
    destruct (prefix m (String c l)) eqn:Hp; [reflexivity|].
    change (String c l ++ t) with (String c (l ++ t)).
    rewrite (IH Hd). destruct (before m l); [reflexivity|].
    now destruct (before m t).
Qed.

Lemma clear_decisive (m l : string) : clear m l = true -> decisive m l = true.
Proof.
  induction l as [|c l IH]; simpl; [reflexivity|].
  intros H. apply andb_prop in H as [H1 H2].
  rewrite H1, orb_true_r. now apply IH.
Qed.

Lemma clear_occurrences (m l : string) : clear m l = true -> occurrences m l = 0%nat.
Proof.
  induction l as [|c l IH]; [reflexivity|].
  simpl clear. intros H. apply andb_prop in H as [H1 H2].
  unfold occurrences; fold occurrences.
  now rewrite (mismatch_prefix_nil _ _ H1), (IH H2).
Qed.

Lemma clear_after (m l : string) :
  m <> EmptyString -> clear m l = true -> after m l = None.
Proof.
  intros Hm. induction l as [|c l IH].
  - now destruct m.
  - simpl clear. intros H. apply andb_prop in H as [H1 H2].
    unfold after; fold after.
    now rewrite (mismatch_prefix_nil _ _ H1), (IH H2).
Qed.

Lemma clear_before (m l : string) :
  m <> EmptyString -> clear m l = true -> before m l = None.
Proof.
  intros Hm. induction l as [|c l IH].
  - now destruct m.
  - simpl clear. intros H. apply andb_prop in H as [H1 H2].
    unfold before; fold before.
    now rewrite (mismatch_prefix_nil _ _ H1), (IH H2).
Qed.

Lemma occurrences_skip (m l t : string) :
  clear m l = true -> occurrences m (l ++ t) = occurrences m t.
Proof.
  intros H. now rewrite occurrences_app, clear_occurrences by auto using clear_decisive.
Qed.

Lemma after_skip (m l t : string) :
  m <> EmptyString -> clear m l = true -> after m (l ++ t) = after m t.
Proof.
  intros Hm H. now rewrite after_app, clear_after by auto using clear_decisive.
Qed.

Lemma before_skip (m l t : string) :
  m <> EmptyString -> clear m l = true ->
  before m (l ++ t) = option_map (append l) (before m t).
Proof.
  intros Hm H. now rewrite before_app, clear_before by auto using clear_decisive.
Qed.

Lemma values_after_skip (m : string) (stop : ascii) (l t : string) :
  clear m l = true -> values_after m stop (l ++ t) = values_after m stop t.
Proof.
  induction l as [|c l IH]; [reflexivity|].
  simpl clear. intros H. apply andb_prop in H as [H1 H2].
  change (String c l ++ t) with (String c (l ++ t)).
  unfold values_after; fold values_after.
  change (String c (l ++ t)) with (String c l ++ t).
  rewrite (mismatch_prefix _ _ t H1). now apply IH.
Qed.

Lemma upto_stop (stop : ascii) (v t : string) :
  lacks stop v = true -> upto stop (v ++ String stop t) = v.
Proof.
  induction v as [|c v IH]; simpl.
  - now rewrite Ascii.eqb_refl.
  - intros H. apply andb_prop in H as [H1 H2].
    destruct (Ascii.eqb c stop); [discriminate|]. now rewrite IH.
Qed.

Lemma values_after_hit (a : ascii) (m' : string) (stop : ascii) (v t : string) :
  clear (String a m') m' = true ->
  clear (String a m') v = true ->
  lacks stop v = true ->
  values_after (String a m') stop (String a m' ++ v ++ String stop t) =
  v :: values_after (String a m') stop (String stop t).
Proof.
  intros Hm Hv Hs.
  change (String a m' ++ v ++ String stop t)
    with (String a (m' ++ v ++ String stop t)).
  unfold values_after; fold values_after.
  change (String a (m' ++ v ++ String stop t))
    with (String a m' ++ v ++ String stop t).
  rewrite prefix_append, strip_append, (upto_stop _ _ _ Hs).
  now rewrite (values_after_skip _ _ _ _ Hm), (values_after_skip _ _ _ _ Hv).
Qed.

Lemma lacks_clear (a : ascii) (m' l : string) :
  lacks a l = true -> clear (String a m') l = true.
Proof.
  induction l as [|c l IH]; simpl; [reflexivity|].
  intros H. apply andb_prop in H as [H1 H2].
  rewrite Ascii.eqb_sym. destruct (Ascii.eqb c a); [discriminate|].
  now apply IH.
Qed.

(** *** [std::to_string] prints a sign and digits only *)

Lemma lacks_cons (c a : ascii) (s : string) :
  lacks c (String a s) = negb (Ascii.eqb a c) && lacks c s.
Proof. reflexivity. Qed.

Lemma string_of_uint_lacks (c : ascii) (d : Decimal.uint) :
  lacks c "0123456789" = true ->
  lacks c (NilEmpty.string_of_uint d) = true.
Proof.
  intros H. rewrite !lacks_cons in H.
  repeat (apply andb_prop in H; destruct H as [? H]).
  induction d; cbn [NilEmpty.string_of_uint]; rewrite ?lacks_cons, ?IHd, ?andb_true_r; auto.
Qed.

Lemma to_string_lacks (c : ascii) (z : Z) :
  lacks c "-0123456789" = true -> lacks c (to_string z) = true.
Proof.
  intros H. rewrite lacks_cons in H. apply andb_prop in H as [Hm Hd].
  pose proof Hd as H0. rewrite lacks_cons in H0. apply andb_prop in H0 as [H0 _].
  assert (Hu : forall d, lacks c (NilZero.string_of_uint d) = true).
  { intros d. unfold NilZero.string_of_uint.
    destruct d; try (now apply string_of_uint_lacks).
    now rewrite lacks_cons, H0. }
  unfold to_string, NilZero.string_of_int.
  destruct (Z.to_int z) as [d|d]; [apply Hu|].
  now rewrite lacks_cons, Hm, Hu.
Qed.

(** *** Normal form of a concatenation *)

Lemma render_cons (p : piece) (l : list piece) :
  render (p :: l) = piece_text p ++ render l.
Proof.
  destruct p, l; simpl; now rewrite ?append_nil_r.
Qed.

Lemma render_cons_piece (p : piece) (l : list piece) :
  render (cons_piece p l) = piece_text p ++ render l.
Proof.
  destruct p as [a|a]; [|apply render_cons].
  destruct l as [|[b|b] l]; try apply render_cons.
  unfold cons_piece. rewrite !render_cons. simpl. now rewrite append_assoc_r.
Qed.

Lemma render_flatten (t : pieces) (acc : list piece) :
  render (flatten t acc) = denote t ++ render acc.
Proof.
  revert acc; induction t as [s|s|a IHa b IHb]; intros acc.
  - apply (render_cons_piece (PLit s)).
  - apply (render_cons (PVar s)).
  - cbn [flatten denote]. now rewrite IHa, IHb, append_assoc_r.
Qed.

Lemma denote_render (t : pieces) : denote t = render (flatten t []).
Proof. rewrite render_flatten. simpl. now rewrite append_nil_r. Qed.

(* ===================================================================== *)
(** ** The dispatcher                                                     *)
(* ===================================================================== *)

(** [processRequest] runs the builder of the branch that [classify] names. *)
Lemma processRequest_respond (now : tm) (request : string) (self : OnvifServer) :
  processRequest now request self = respond now (classify request) self.
Proof.
  unfold processRequest, classify.
  repeat match goal with
         | |- context [found (find ?n request)] =>
             destruct (found (find n request))
         end; reflexivity.
Qed.

(** No builder assigns to a data member. *)
Lemma respond_frame (now : tm) (op : Operation) (self : OnvifServer) :
  snd (respond now op self) = self.
Proof. destruct op; reflexivity. Qed.

Lemma processRequest_frame (now : tm) (request : string) (self : OnvifServer) :
  snd (processRequest now request self) = self.
Proof. rewrite processRequest_respond. apply respond_frame. Qed.

Lemma serve_frame (reqs : list (tm * string)) (self : OnvifServer) :
  snd (serve reqs self) = self.
Proof.
  induction reqs as [|[now request] reqs IH]; [reflexivity|].
  cbn [serve].
  pose proof (processRequest_frame now request self) as Hf.
  destruct (processRequest now request self) as [response self1].
  cbn [snd] in Hf. subst self1.
  destruct (serve reqs self) as [responses self2]. exact IH.
Qed.

(** The clock reaches the response of no builder. *)
Lemma respond_clock (now1 now2 : tm) (op : Operation) (self : OnvifServer) :
  fst (respond now1 op self) = fst (respond now2 op self).
Proof. destruct op; reflexivity. Qed.

Lemma classify_cases (request : string) :
  FirstMatch request precedence (classify request).
Proof.
  unfold classify, precedence.
  repeat match goal with
         | |- context [found (find ?n request)] =>
             let H := fresh "H" in
             destruct (found (find n request)) eqn:H;
             [ apply found_find_iff in H
             | apply not_found_find_iff in H ]
         end;
    repeat first
      [ apply FirstMatch_none
      | eapply FirstMatch_hit; [reflexivity | eassumption]
      | eapply FirstMatch_skip; [reflexivity | eassumption | ] ].
Qed.

Lemma FirstMatch_functional (request : string) (ops : list Operation)
      (op1 op2 : Operation) :
  FirstMatch request ops op1 -> FirstMatch request ops op2 -> op1 = op2.
Proof.
  intros H1; revert op2.
  induction H1 as [|op n ops Hn Hs|op n ops res Hn Hs H1 IH]; intros op2 H2;
    inversion H2; subst; try reflexivity; try (now apply IH);
    match goal with
    | Ha : operation_name ?o = Some ?a, Hb : operation_name ?o = Some ?b |- _ =>
        rewrite Ha in Hb; injection Hb as <-; contradiction
    end.
Qed.

(** C1.  [classify] tries the six operation names in the order
    GetDeviceInformation, GetCapabilities, GetProfiles, GetStreamUri,
    GetSystemDateAndTime, GetConfigurations and answers the operation of the
    first one that occurs in the request, and it is the only such answer;
    it is the branch that [processRequest] takes.  A request in which
    GetDeviceInformation occurs is classified as GetDeviceInformation,
    whatever else occurs in it and wherever; a request in which none of the
    six names occurs, the empty request among them, is [Unrecognized]. *)
Theorem classify_first_match (request : string) :
  (forall op, FirstMatch request precedence op <-> classify request = op) /\
  (forall now self,
     processRequest now request self = respond now (classify request) self) /\
  (Substring "GetDeviceInformation" request ->
     classify request = GetDeviceInformation) /\
  ((forall op n, operation_name op = Some n -> ~ Substring n request) ->
     classify request = Unrecognized) /\
  classify ("<tds:GetDeviceInformation/><tds:GetCapabilities/>") = GetDeviceInformation /\
  classify ("<tds:GetCapabilities/><tds:GetDeviceInformation/>") = GetDeviceInformation /\
  classify EmptyString = Unrecognized.
Proof.
  split; [|split; [|split; [|split; [|repeat split]]]].
  - intros op; split.
    + intros H. symmetry.
      exact (FirstMatch_functional _ _ _ _ H (classify_cases request)).
    + intros <-. apply classify_cases.
  - intros now self. apply processRequest_respond.
  - intros H. apply found_find_iff in H. unfold classify. now rewrite H.
  - intros H. unfold classify.
    repeat match goal with
           | |- context [found (find ?n request)] =>
               let E := fresh "E" in
               destruct (found (find n request)) eqn:E;
               [ apply found_find_iff in E; exfalso;
                 eapply H; [|exact E];
                 first [ exact (eq_refl : operation_name GetDeviceInformation = _)
                       | exact (eq_refl : operation_name GetCapabilities = _)
                       | exact (eq_refl : operation_name GetProfiles = _)
                       | exact (eq_refl : operation_name GetStreamUri = _)
                       | exact (eq_refl : operation_name GetSystemDateAndTime = _)
                       | exact (eq_refl : operation_name PTZGetConfigurations = _) ]
               | ]
           end.
    reflexivity.
Qed.

(** C1, at a request that names two operations, the later of the table
    first. *)
Lemma classify_first_match_witness :
  Substring "GetDeviceInformation" "GetCapabilities GetDeviceInformation" /\
  classify "GetCapabilities GetDeviceInformation" = GetDeviceInformation.
Proof.
  assert (H : Substring "GetDeviceInformation" "GetCapabilities GetDeviceInformation")
    by (exists "GetCapabilities ", EmptyString; reflexivity).
  split; [exact H|].
  exact (proj1 (proj2 (proj2
           (classify_first_match "GetCapabilities GetDeviceInformation"))) H).
Defined.

(** C9.  A call of [processRequest] leaves the object as it found it: the
    identity fields, the port and the profile collection, with its length,
    its order and the fields of each profile, are those before the call. *)
Theorem dispatch_frame (now : tm) (request : string) (self : OnvifServer) :
  let self' := snd (processRequest now request self) in
  self' = self /\
  device_uuid self' = device_uuid self /\
  device_name self' = device_name self /\
  manufacturer self' = manufacturer self /\
  model self' = model self /\
  serial_number self' = serial_number self /\
  firmware_version self' = firmware_version self /\
  media_profiles self' = media_profiles self /\
  List.length (media_profiles self') = List.length (media_profiles self).
Proof.
  cbv zeta. rewrite processRequest_frame. repeat split.
Qed.

(** C7.  The constructor leaves two profiles in the store, MainStream
    (1920 x 1080, 30 fps, 4000000 bps) then SubStream (640 x 480, 15 fps,
    1000000 bps); their tokens differ and their sizes and rates are
    positive; and so it is after any sequence of requests has been served. *)
Theorem store_invariant (p : Z) (reqs : list (tm * string)) :
  let self := snd (serve reqs (OnvifServer_new p)) in
  media_profiles self = [MainStream; SubStream] /\
  name MainStream = "MainStream" /\
  (width MainStream, height MainStream, framerate MainStream,
   bitrate MainStream) = (1920, 1080, 30, 4000000) /\
  name SubStream = "SubStream" /\
  (width SubStream, height SubStream, framerate SubStream,
   bitrate SubStream) = (640, 480, 15, 1000000) /\
  NoDup (map token (media_profiles self)) /\
  Forall positive_profile (media_profiles self).
Proof.
  cbv zeta. rewrite serve_frame.
  change (media_profiles (OnvifServer_new p)) with [MainStream; SubStream].
  repeat split.
  - repeat constructor; simpl; intuition discriminate.
  - repeat constructor.
Qed.

(** C8.  The response to a request is a function of the request alone:
    whatever was served before either call and whatever the clock shows at
    either call, two calls with the same request return the same string. *)
Theorem dispatch_deterministic (self : OnvifServer)
        (reqs1 reqs2 : list (tm * string)) (now1 now2 : tm) (request : string) :
  fst (processRequest now1 request (snd (serve reqs1 self))) =
  fst (processRequest now2 request (snd (serve reqs2 self))).
Proof.
  rewrite !serve_frame, !processRequest_respond. apply respond_clock.
Qed.

(** The fault envelope, read as text. *)
Lemma fault_envelope_text :
  element_path (fault_path ["SOAP-ENV:Code"; "SOAP-ENV:Value"])
               (generateSoapEnvelope fault_body) = Some "SOAP-ENV:Receiver" /\
  element_path (fault_path ["SOAP-ENV:Reason"; "SOAP-ENV:Text"])
               (generateSoapEnvelope fault_body) = Some "Method not implemented".
Proof. split; vm_compute; reflexivity. Qed.

(** C2.  [processRequest] answers every request with a string, and leaves
    the object alone; for a request that is [Unrecognized] the string is the
    envelope around the fault whose code value is SOAP-ENV:Receiver and whose
    reason text is Method not implemented. *)
Theorem dispatch_total_fault (now : tm) (request : string) (self : OnvifServer) :
  exists response,
    processRequest now request self = (response, self) /\
    (classify request = Unrecognized ->
     response = generateSoapEnvelope fault_body /\
     element_path (fault_path ["SOAP-ENV:Code"; "SOAP-ENV:Value"]) response
       = Some "SOAP-ENV:Receiver" /\
     element_path (fault_path ["SOAP-ENV:Reason"; "SOAP-ENV:Text"]) response
       = Some "Method not implemented").
Proof.
  exists (fst (processRequest now request self)). split.
  - rewrite <- (processRequest_frame now request self) at 3.
    now destruct (processRequest now request self).
  - intros H. rewrite processRequest_respond, H. cbn [respond fst].
    split; [reflexivity | exact fault_envelope_text].
Qed.

(** C2, at the request [garbage] and at the empty request. *)
Lemma dispatch_total_fault_witness :
  (classify "garbage" = Unrecognized /\
   fst (processRequest epoch "garbage" (OnvifServer_new 8080))
     = generateSoapEnvelope fault_body) /\
  (classify EmptyString = Unrecognized /\
   fst (processRequest epoch EmptyString (OnvifServer_new 8080))
     = generateSoapEnvelope fault_body).
Proof.
  split; (split; [reflexivity|]).
  - destruct (dispatch_total_fault epoch "garbage" (OnvifServer_new 8080))
      as (response & Hr & Hf).
    rewrite Hr. exact (proj1 (Hf eq_refl)).
  - destruct (dispatch_total_fault epoch EmptyString (OnvifServer_new 8080))
      as (response & Hr & Hf).
    rewrite Hr. exact (proj1 (Hf eq_refl)).
Defined.

(** The date and time response does not mention the object or the clock. *)
Lemma date_time_response_fixed (now : tm) (self : OnvifServer) :
  fst (handleGetSystemDateAndTime now self) =
  fst (handleGetSystemDateAndTime epoch (OnvifServer_new 8080)).
Proof. reflexivity. Qed.

(** C3.  The response to a request classified as GetSystemDateAndTime
    carries DateTimeType Manual, DaylightSavings false, TZ UTC and the UTC
    time 12:00:00 of 2024-1-1; it is the same string at every instant of the
    clock and for every object, although [getCurrentTime], which the builder
    calls, prints the instant it is given. *)
Theorem date_time_is_fixed (now : tm) (request : string) (self : OnvifServer) :
  classify request = GetSystemDateAndTime ->
  let response := fst (processRequest now request self) in
  element_path (date_time_path ["tds:DateTimeType"]) response = Some "Manual" /\
  element_path (date_time_path ["tds:DaylightSavings"]) response = Some "false" /\
  element_path (date_time_path ["tds:TimeZone"; "tds:TZ"]) response = Some "UTC" /\
  element_path (date_time_path ["tds:UTCDateTime"; "tds:Time"; "tds:Hour"]) response = Some "12" /\
  element_path (date_time_path ["tds:UTCDateTime"; "tds:Time"; "tds:Minute"]) response = Some "0" /\
  element_path (date_time_path ["tds:UTCDateTime"; "tds:Time"; "tds:Second"]) response = Some "0" /\
  element_path (date_time_path ["tds:UTCDateTime"; "tds:Date"; "tds:Year"]) response = Some "2024" /\
  element_path (date_time_path ["tds:UTCDateTime"; "tds:Date"; "tds:Month"]) response = Some "1" /\
  element_path (date_time_path ["tds:UTCDateTime"; "tds:Date"; "tds:Day"]) response = Some "1" /\
  (forall now' self', fst (processRequest now' request self') = response) /\
  fst (getCurrentTime epoch self) = "1970-01-01T00:00:00Z" /\
  fst (getCurrentTime noon_2024 self) = "2024-01-01T12:00:00Z".
Proof.
  intros H. cbv zeta.
  assert (E : forall now' self',
             fst (processRequest now' request self') =
             fst (handleGetSystemDateAndTime epoch (OnvifServer_new 8080))).
  { intros now' self'. rewrite processRequest_respond, H. reflexivity. }
  rewrite E.
  do 9 (split; [vm_compute; reflexivity|]).
  split; [intros now' self'; apply E|].
  split; vm_compute; reflexivity.
Qed.

(** C3, at a request for the date and time, served at two instants. *)
Lemma date_time_is_fixed_witness :
  classify "<tds:GetSystemDateAndTime/>" = GetSystemDateAndTime /\
  fst (processRequest epoch "<tds:GetSystemDateAndTime/>" (OnvifServer_new 8080)) =
  fst (processRequest noon_2024 "<tds:GetSystemDateAndTime/>" (OnvifServer_new 8080)).
Proof.
  split; [reflexivity|].
  pose proof (date_time_is_fixed noon_2024 "<tds:GetSystemDateAndTime/>"
                (OnvifServer_new 8080) eq_refl) as H.
  cbv zeta in H.
  destruct H as (_ & _ & _ & _ & _ & _ & _ & _ & _ & H & _).
  exact (H epoch (OnvifServer_new 8080)).
Defined.

(* ===================================================================== *)
(** ** Responses with variable parts                                      *)
(* ===================================================================== *)

Lemma lacks_lt_clear (m l : string) :
  prefix "<" m = true -> lacks "<" l = true -> clear m l = true.
Proof.
  destruct m as [|a m']; cbn [prefix]; [discriminate|].
  destruct (ascii_dec "<" a) as [<-|]; [|discriminate].
  intros _. apply lacks_clear.
Qed.

Lemma marker_nonempty (m : string) : prefix "<" m = true -> m <> EmptyString.
Proof. destruct m; cbn [prefix]; [discriminate | intros _; discriminate]. Qed.

Lemma occurrences_skip_var (m d t : string) :
  prefix "<" m = true -> lacks "<" d = true ->
  occurrences m (d ++ t) = occurrences m t.
Proof. intros Hm Hd. apply occurrences_skip. now apply lacks_lt_clear. Qed.

Lemma after_skip_var (m d t : string) :
  prefix "<" m = true -> lacks "<" d = true ->
  after m (d ++ t) = after m t.
Proof.
  intros Hm Hd. apply after_skip;
    [now apply marker_nonempty | now apply lacks_lt_clear].
Qed.

Lemma before_skip_var (m d t : string) :
  prefix "<" m = true -> lacks "<" d = true ->
  before m (d ++ t) = option_map (append d) (before m t).
Proof.
  intros Hm Hd. apply before_skip;
    [now apply marker_nonempty | now apply lacks_lt_clear].
Qed.

(** Reading of a concatenation as [pieces]; anything that is not a literal
    is a variable piece. *)
Ltac reify s :=
  lazymatch s with
  | append ?a ?b =>
      let ra := reify a in
      let rb := reify b in
      constr:(Cat ra rb)
  | String _ _ => constr:(Lit s)
  | EmptyString => constr:(Lit s)
  | nl => constr:(Lit s)
  | dq => constr:(Lit s)
  | _ => constr:(Var s)
  end.

(** Puts the concatenation [s] of the goal in normal form. *)
Ltac normal_form s :=
  let t := reify s in
  change s with (denote t);
  rewrite (denote_render t);
  let l := eval vm_compute in (flatten t []) in
  change (flatten t []) with l;
  cbv beta iota delta [render].

(** One step of reading a normal form: a variable piece is skipped, a
    literal piece is scanned. *)
Ltac scan_step :=
  match goal with
  | |- context [option_map ?f (Some ?x)] =>
      change (option_map f (Some x)) with (Some (f x)); cbv beta iota
  | |- context [occurrences ?m (?l ++ ?t)] =>
      first
        [ is_var l;
          rewrite (occurrences_skip_var m l t)
            by first [vm_compute; reflexivity | assumption]
        | rewrite (occurrences_app m l t) by (vm_compute; reflexivity);
          let v := eval vm_compute in (occurrences m l) in
          change (occurrences m l) with v ]
  | |- context [after ?m (?l ++ ?t)] =>
      first
        [ is_var l;
          rewrite (after_skip_var m l t)
            by first [vm_compute; reflexivity | assumption]
        | rewrite (after_app m l t) by (vm_compute; reflexivity);
          let v := eval vm_compute in (after m l) in
          change (after m l) with v; cbv beta iota ]
  | |- context [before ?m (?l ++ ?t)] =>
      first
        [ is_var l;
          rewrite (before_skip_var m l t)
            by first [vm_compute; reflexivity | assumption]
        | rewrite (before_app m l t) by (vm_compute; reflexivity);
          let v := eval vm_compute in (before m l) in
          change (before m l) with v; cbv beta iota ]
  | |- context [occurrences ?m (String ?c ?l)] =>
      let v := eval vm_compute in (occurrences m (String c l)) in
      change (occurrences m (String c l)) with v
  | |- context [after ?m (String ?c ?l)] =>
      let v := eval vm_compute in (after m (String c l)) in
      change (after m (String c l)) with v; cbv beta iota
  | |- context [before ?m (String ?c ?l)] =>
      let v := eval vm_compute in (before m (String c l)) in
      change (before m (String c l)) with v; cbv beta iota
  end.

Lemma int_add_exact (p : Z) : has_successor p -> int_add p 1 = p + 1.
Proof.
  unfold has_successor, int_min, int_max, int_add, int_wrap. intros H.
  rewrite Z.mod_small; lia.
Qed.

(** C5.  For a port [p] below the largest [int], so for every TCP port, the
    response to a request classified as GetStreamUri holds one MediaUri,
    whose Uri is rtsp://localhost:<p+1>/stream1, InvalidAfterConnect false,
    InvalidAfterReboot false and Timeout PT60S. *)
Theorem stream_uri_response (now : tm) (request : string) (self : OnvifServer) :
  classify request = GetStreamUri ->
  has_successor (port self) ->
  let response := fst (processRequest now request self) in
  occurrences "<trt:MediaUri>" response = 1%nat /\
  occurrences "</trt:MediaUri>" response = 1%nat /\
  occurrences "<trt:Uri>" response = 1%nat /\
  element_path (media_uri_path ["trt:Uri"]) response
    = Some ("rtsp://localhost:" ++ to_string (port self + 1) ++ "/stream1") /\
  element_path (media_uri_path ["trt:InvalidAfterConnect"]) response = Some "false" /\
  element_path (media_uri_path ["trt:InvalidAfterReboot"]) response = Some "false" /\
  element_path (media_uri_path ["trt:Timeout"]) response = Some "PT60S".
Proof.
  intros Hc Hp. cbv zeta.
  rewrite processRequest_respond, Hc.
  cbv beta iota zeta delta [respond handleGetStreamUri fst generateSoapEnvelope].
  rewrite (int_add_exact _ Hp).
  pose proof (to_string_lacks "<" (port self + 1) eq_refl) as HD.
  revert HD. generalize (to_string (port self + 1)). intros D HD.
  match goal with |- context [occurrences _ ?s] => normal_form s end.
  cbv [media_uri_path List.app element_path element_text].
  repeat split; repeat scan_step; reflexivity.
Qed.

(** C5, at the port 8080 of [main]. *)
Lemma stream_uri_response_witness :
  classify "<trt:GetStreamUri/>" = GetStreamUri /\
  has_successor (port (OnvifServer_new 8080)) /\
  element_path (media_uri_path ["trt:Uri"])
    (fst (processRequest epoch "<trt:GetStreamUri/>" (OnvifServer_new 8080)))
  = Some "rtsp://localhost:8081/stream1".
Proof.
  assert (Hp : has_successor (port (OnvifServer_new 8080)))
    by (unfold has_successor, int_min, int_max; simpl; lia).
  split; [reflexivity|]. split; [exact Hp|].
  destruct (stream_uri_response epoch "<trt:GetStreamUri/>"
              (OnvifServer_new 8080) eq_refl Hp)
    as (_ & _ & _ & H & _).
  exact H.
Defined.

Lemma envelope_unfold (body : string) :
  generateSoapEnvelope body =
  envelope_head ++ "<SOAP-ENV:Body>" ++ nl ++ body ++
  "</SOAP-ENV:Body>" ++ nl ++ "</SOAP-ENV:Envelope>".
Proof. reflexivity. Qed.

Lemma envelope_root (body : string) :
  root_attributes (generateSoapEnvelope body) =
  root_attributes envelope_head.
Proof.
  rewrite envelope_unfold. unfold root_attributes.
  rewrite after_app by (vm_compute; reflexivity).
  destruct (after "<SOAP-ENV:Envelope " envelope_head) as [rest|] eqn:E;
    [|vm_compute in E; discriminate].
  rewrite before_app.
  - destruct (before ">" rest) eqn:B; [reflexivity|].
    revert B. injection E as <-. vm_compute. discriminate.
  - injection E as <-. vm_compute. reflexivity.
Qed.

(** The envelope tags of each response, whatever the port. *)
Lemma envelope_tags (now : tm) (op : Operation) (p : Z) :
  let response := fst (respond now op (OnvifServer_new p)) in
  occurrences "<SOAP-ENV:Envelope" response = 1%nat /\
  occurrences "</SOAP-ENV:Envelope>" response = 1%nat /\
  occurrences "<SOAP-ENV:Body>" response = 1%nat /\
  occurrences "</SOAP-ENV:Body>" response = 1%nat.
Proof.
  cbv zeta.
  destruct op;
    [ repeat split; vm_compute; reflexivity
    |
    | repeat split; vm_compute; reflexivity
    |
    | repeat split; vm_compute; reflexivity ..].
  - cbv beta iota zeta delta [respond handleGetCapabilities fst generateSoapEnvelope].
    change (port (OnvifServer_new p)) with p.
    pose proof (to_string_lacks "<" p eq_refl) as HD.
    revert HD. generalize (to_string p). intros D HD.
    match goal with |- context [occurrences _ ?s] => normal_form s end.
    repeat split; repeat scan_step; reflexivity.
  - cbv beta iota zeta delta [respond handleGetStreamUri fst generateSoapEnvelope].
    change (port (OnvifServer_new p)) with p.
    pose proof (to_string_lacks "<" (int_add p 1) eq_refl) as HD.
    revert HD. generalize (to_string (int_add p 1)). intros D HD.
    match goal with |- context [occurrences _ ?s] => normal_form s end.
    repeat split; repeat scan_step; reflexivity.
Qed.

(** C6.  [generateSoapEnvelope] writes the XML declaration, then the start
    tag of the Envelope root, which declares the four prefixes SOAP-ENV, tds,
    trt and tptz and no other, then one Body element around the fragment as
    it was given, then the end tag of the root.  Every response of
    [processRequest], the fault among them, is such an envelope and has one
    Envelope start tag, one Envelope end tag, one Body start tag and one Body
    end tag. *)
Theorem envelope_shape :
  (forall body,
     generateSoapEnvelope body =
       envelope_head ++ "<SOAP-ENV:Body>" ++ nl ++ body ++
       "</SOAP-ENV:Body>" ++ nl ++ "</SOAP-ENV:Envelope>" /\
     prefix ("<?xml version=" ++ dq ++ "1.0" ++ dq ++ " encoding=" ++ dq ++
             "UTF-8" ++ dq ++ "?>" ++ nl ++ "<SOAP-ENV:Envelope ")
            (generateSoapEnvelope body) = true /\
     option_map declared_prefixes (root_attributes (generateSoapEnvelope body))
       = Some ["SOAP-ENV"; "tds"; "trt"; "tptz"] /\
     occurrences "<SOAP-ENV:Body>" envelope_head = 0%nat) /\
  (forall p now request,
     let response := fst (processRequest now request (OnvifServer_new p)) in
     (exists fragment, response = generateSoapEnvelope fragment) /\
     occurrences "<SOAP-ENV:Envelope" response = 1%nat /\
     occurrences "</SOAP-ENV:Envelope>" response = 1%nat /\
     occurrences "<SOAP-ENV:Body>" response = 1%nat /\
     occurrences "</SOAP-ENV:Body>" response = 1%nat).
Proof.
  split.
  - intros body. split; [apply envelope_unfold|]. split; [|split].
    + rewrite envelope_unfold. apply prefix_mono. vm_compute. reflexivity.
    + rewrite envelope_root. vm_compute. reflexivity.
    + vm_compute. reflexivity.
  - intros p now request. cbv zeta. rewrite processRequest_respond. split.
    + destruct (classify request); eexists; reflexivity.
    + apply envelope_tags.
Qed.

(* ===================================================================== *)
(** ** The image of the dispatcher                                        *)
(* ===================================================================== *)

Lemma classify_sample_request (op : Operation) :
  classify (sample_request op) = op.
Proof. destruct op; reflexivity. Qed.

Lemma all_operations_complete (op : Operation) : In op all_operations.
Proof. destruct op; simpl; tauto. Qed.

Lemma body_start_respond (now : tm) (p : Z) :
  map (fun op => body_start (fst (respond now op (OnvifServer_new p))))
      all_operations =
  ["<tds:GetDevi"; "<tds:GetCapa"; "<trt:GetProf"; "<trt:GetStre";
   "<tds:GetSyst"; "<tptz:GetCon"; "<SOAP-ENV:Fa"].
Proof. vm_compute. reflexivity. Qed.

Lemma respond_NoDup (now : tm) (p : Z) :
  NoDup (map (fun op => fst (respond now op (OnvifServer_new p))) all_operations).
Proof.
  apply (NoDup_map_inv body_start). rewrite map_map, body_start_respond.
  repeat constructor; simpl; intuition discriminate.
Qed.

Lemma respond_injective (now : tm) (p : Z) (op1 op2 : Operation) :
  fst (respond now op1 (OnvifServer_new p)) =
  fst (respond now op2 (OnvifServer_new p)) -> op1 = op2.
Proof.
  intros H. apply (f_equal body_start) in H.
  destruct op1, op2; try reflexivity; vm_compute in H; discriminate.
Qed.

(** C10.  With the port and the store of the constructor, the responses of
    [processRequest] over all requests are seven strings, different from one
    another, one for each operation and one for the fault; two requests of
    the same classification get the same response, so a response is a
    function of the classification of the request and of nothing else in
    it. *)
Theorem response_image (p : Z) (now : tm) :
  let dispatch := fun request =>
    fst (processRequest now request (OnvifServer_new p)) in
  let image :=
    map (fun op => fst (respond now op (OnvifServer_new p))) all_operations in
  List.length image = 7%nat /\
  NoDup image /\
  (forall response,
     In response image <-> exists request, dispatch request = response) /\
  (forall request1 request2,
     classify request1 = classify request2 ->
     dispatch request1 = dispatch request2) /\
  (forall request1 request2,
     dispatch request1 = dispatch request2 ->
     classify request1 = classify request2).
Proof.
  cbv zeta. split; [reflexivity|]. split; [apply respond_NoDup|].
  split; [|split].
  - intros response. rewrite in_map_iff. split.
    + intros (op & <- & _). exists (sample_request op).
      now rewrite processRequest_respond, classify_sample_request.
    + intros (request & <-). exists (classify request).
      split; [now rewrite processRequest_respond | apply all_operations_complete].
  - intros request1 request2 H. now rewrite !processRequest_respond, H.
  - intros request1 request2. rewrite !processRequest_respond.
    apply respond_injective.
Qed.

(** C10, at two requests for the capabilities that differ in their text. *)
Lemma response_image_witness :
  classify "<tds:GetCapabilities/>" = classify "GetCapabilities and more" /\
  fst (processRequest epoch "<tds:GetCapabilities/>" (OnvifServer_new 8080)) =
  fst (processRequest epoch "GetCapabilities and more" (OnvifServer_new 8080)).
Proof.
  split; [reflexivity|].
  destruct (response_image 8080 epoch) as (_ & _ & _ & H & _).
  exact (H "<tds:GetCapabilities/>" "GetCapabilities and more" eq_refl).
Defined.

(* ===================================================================== *)
(** ** The profiles response                                              *)
(* ===================================================================== *)

(** The loop of [handleGetProfiles] concatenates the profile texts in the
    order of the collection. *)
Lemma fold_left_profiles (ps : list MediaProfile) (init : string) :
  fold_left (fun profiles_xml profile => profiles_xml ++ profile_xml profile)
            ps init = init ++ profiles_text ps.
Proof.
  revert init; induction ps as [|p ps IH]; intros init; cbn [fold_left profiles_text].
  - now rewrite append_nil_r.
  - now rewrite IH, append_assoc_r.
Qed.

Lemma values_after_value (m : string) (stop : ascii) (v l t : string) :
  m <> EmptyString ->
  clear m (tail m) = true ->
  clear m v = true ->
  lacks stop v = true ->
  prefix (String stop EmptyString) l = true ->
  values_after m stop (m ++ v ++ l ++ t) = v :: values_after m stop (l ++ t).
Proof.
  intros Hm Ht Hv Hs Hl. destruct m as [|a m']; [now elim Hm|].
  rewrite (prefix_split _ _ Hl). cbn [tail] in Ht.
  change ((String stop EmptyString ++ strip (String stop EmptyString) l) ++ t)
    with (String stop (strip (String stop EmptyString) l ++ t)).
  now apply values_after_hit.
Qed.

(** One step of reading the values that follow a marker. *)
Ltac values_step :=
  match goal with
  | |- context [values_after ?m ?stop (?l ++ ?t)] =>
      first
        [ is_var l;
          rewrite (values_after_skip m stop l t)
            by (apply lacks_lt_clear; [vm_compute; reflexivity | assumption])
        | rewrite (values_after_skip m stop l t) by (vm_compute; reflexivity) ]
  end.

Section OneProfile.

Variable profile : MediaProfile.
Hypothesis profile_plain : plain_profile profile = true.

Lemma plain_profile_fields :
  lacks "<" (token profile) = true /\
  lacks (ascii_of_nat 34) (token profile) = true /\
  lacks "<" (name profile) = true /\
  lacks "<" (video_encoder_token profile) = true.
Proof.
  unfold plain_profile in profile_plain.
  repeat (apply andb_prop in profile_plain;
          destruct profile_plain as [profile_plain ?]).
  auto.
Qed.

Ltac name_fields :=
  destruct plain_profile_fields as (Ht & Hq & Hn & Hv);
  pose proof (to_string_lacks "<" (width profile) eq_refl) as Hw;
  pose proof (to_string_lacks "<" (height profile) eq_refl) as Hh;
  pose proof (to_string_lacks "<" (framerate profile) eq_refl) as Hf;
  pose proof (to_string_lacks "<" (bitrate profile) eq_refl) as Hb;
  unfold profile_xml;
  revert Ht Hq Hn Hv Hw Hh Hf Hb;
  generalize (token profile) (name profile) (video_encoder_token profile)
             (to_string (width profile)) (to_string (height profile))
             (to_string (framerate profile)) (to_string (bitrate profile));
  intros tok nam vet w h fr br Ht Hq Hn Hv Hw Hh Hf Hb.

Lemma profile_xml_tokens (rest : string) :
  profile_tokens (profile_xml profile ++ rest) =
  token profile :: profile_tokens rest.
Proof.
  unfold profile_tokens. name_fields.
  match goal with |- context [values_after _ _ ?s] => normal_form s end.
  match goal with
  | |- context [values_after ?m ?stop (?lm ++ ?v ++ ?l ++ ?t)] =>
      change lm with m;
      rewrite (values_after_value m stop v l t);
      [ | vm_compute; discriminate
        | vm_compute; reflexivity
        | apply lacks_lt_clear; [vm_compute; reflexivity | assumption]
        | assumption
        | vm_compute; reflexivity ]
  end.
  repeat values_step. reflexivity.
Qed.

Lemma profile_xml_tags (rest : string) :
  occurrences "<trt:Profiles " (profile_xml profile ++ rest) =
    S (occurrences "<trt:Profiles " rest) /\
  occurrences "</trt:Profiles>" (profile_xml profile ++ rest) =
    S (occurrences "</trt:Profiles>" rest).
Proof.
  name_fields.
  match goal with |- context [occurrences _ ?s] => normal_form s end.
  split; repeat scan_step; reflexivity.
Qed.

End OneProfile.

Lemma profiles_text_tokens (ps : list MediaProfile) (rest : string) :
  forallb plain_profile ps = true ->
  profile_tokens (profiles_text ps ++ rest) =
  (map token ps ++ profile_tokens rest)%list.
Proof.
  induction ps as [|p ps IH]; cbn [forallb profiles_text map]; intros H.
  - reflexivity.
  - apply andb_prop in H as [Hp Hps].
    rewrite append_assoc_r, (profile_xml_tokens p Hp), (IH Hps). reflexivity.
Qed.

Lemma profiles_text_tags (ps : list MediaProfile) (rest : string) :
  forallb plain_profile ps = true ->
  occurrences "<trt:Profiles " (profiles_text ps ++ rest) =
    (List.length ps + occurrences "<trt:Profiles " rest)%nat /\
  occurrences "</trt:Profiles>" (profiles_text ps ++ rest) =
    (List.length ps + occurrences "</trt:Profiles>" rest)%nat.
Proof.
  induction ps as [|p ps IH]; cbn [forallb profiles_text List.length]; intros H.
  - split; reflexivity.
  - apply andb_prop in H as [Hp Hps].
    rewrite append_assoc_r.
    destruct (profile_xml_tags p Hp (profiles_text ps ++ rest)) as [-> ->].
    destruct (IH Hps) as [-> ->]. split; reflexivity.
Qed.

(** A plain string holds none of the characters that are not plain. *)
Lemma xml_plain_lacks (c : ascii) (s : string) :
  xml_plain_char c = false -> xml_plain s = true -> lacks c s = true.
Proof.
  intros Hc. induction s as [|a s IH]; [reflexivity|].
  cbn [xml_plain]. intros H. apply andb_prop in H as [Ha Hs].
  rewrite lacks_cons, (IH Hs), andb_true_r.
  destruct (Ascii.eqb_spec a c) as [->|]; [|reflexivity].
  rewrite Hc in Ha. discriminate.
Qed.

Lemma xml_plain_profile_plain (p : MediaProfile) :
  xml_plain_profile p = true -> plain_profile p = true.
Proof.
  unfold xml_plain_profile, plain_profile. intros H.
  apply andb_prop in H as [H Hv]. apply andb_prop in H as [Ht Hn].
  rewrite (xml_plain_lacks "<" _ eq_refl Ht),
          (xml_plain_lacks (ascii_of_nat 34) _ eq_refl Ht),
          (xml_plain_lacks "<" _ eq_refl Hn),
          (xml_plain_lacks "<" _ eq_refl Hv).
  reflexivity.
Qed.

Lemma xml_plain_profiles_plain (ps : list MediaProfile) :
  forallb xml_plain_profile ps = true -> forallb plain_profile ps = true.
Proof.
  induction ps as [|p ps IH]; [reflexivity|]. cbn [forallb]. intros H.
  apply andb_prop in H as [Hp Hps].
  now rewrite (xml_plain_profile_plain p Hp), (IH Hps).
Qed.

(** The profiles response, read as text, for a collection whose strings
    stand apart from the markup. *)
Lemma profiles_response_text (now : tm) (request : string) (self : OnvifServer) :
  classify request = GetProfiles ->
  forallb plain_profile (media_profiles self) = true ->
  let response := fst (processRequest now request self) in
  profile_tokens response = map token (media_profiles self) /\
  occurrences "<trt:Profiles " response = List.length (media_profiles self) /\
  occurrences "</trt:Profiles>" response = List.length (media_profiles self).
Proof.
  intros Hc Hp. cbv zeta.
  rewrite processRequest_respond, Hc.
  cbv beta iota zeta delta [respond handleGetProfiles fst generateSoapEnvelope].
  rewrite fold_left_profiles.
  change (EmptyString ++ profiles_text (media_profiles self))
    with (profiles_text (media_profiles self)).
  pose proof (profiles_text_tokens (media_profiles self)) as Htok.
  pose proof (profiles_text_tags (media_profiles self)) as Htag.
  revert Htok Htag.
  generalize (profiles_text (media_profiles self)). intros X Htok Htag.
  match goal with |- context [occurrences _ ?s] => normal_form s end.
  unfold profile_tokens in *.
  match goal with
  | |- context [values_after _ _ (_ ++ X ++ ?rest)] =>
      specialize (Htok rest Hp); destruct (Htag rest Hp) as [Hopen Hclose]
  end.
  split; [|split].
  - rewrite values_after_skip by (vm_compute; reflexivity).
    rewrite Htok. apply app_nil_r.
  - scan_step. rewrite Hopen. cbn [Nat.add]. apply Nat.add_0_r.
  - scan_step. rewrite Hclose. cbn [Nat.add]. apply Nat.add_0_r.
Qed.



(* ===================================================================== *)
(** ** Further properties of the dispatcher and the builders              *)
(* ===================================================================== *)

Lemma Substring_trans (a b c : string) :
  Substring a b -> Substring b c -> Substring a c.
Proof.
  intros (p1 & q1 & ->) (p2 & q2 & ->).
  exists (p2 ++ p1), (q1 ++ q2). now rewrite !append_assoc_r.
Qed.

Lemma found_find_mono (n r r' : string) :
  Substring r r' -> found (find n r') = false -> found (find n r) = false.
Proof.
  intros Hs H'. apply not_found_find_iff. apply not_found_find_iff in H'.
  intros H. apply H'. now apply Substring_trans with r.
Qed.

(** X1.  Text around a request never moves it to a later branch: when
    [request] occurs in [message], the branch that [processRequest] takes
    for [message] comes no later in its order than the branch for
    [request]. *)
Theorem classify_embedding (request message : string) :
  Substring request message ->
  (rank (classify message) <= rank (classify request))%nat.
Proof.
  intros Hs. unfold classify.
  repeat match goal with
         | |- context [found (find ?n message)] =>
             let E := fresh "E" in
             destruct (found (find n message)) eqn:E;
             [ cbn [rank];
               repeat match goal with
                      | |- context [found (find ?k request)] =>
                          destruct (found (find k request))
                      end; cbn [rank]; lia
             | rewrite (found_find_mono n request message Hs E) ]
         end.
  cbn [rank]. lia.
Qed.

(** X1, at a capabilities request inside an HTTP message whose header names
    another operation. *)
Lemma classify_embedding_witness :
  Substring "<tds:GetCapabilities/>"
            "SOAPAction: GetDeviceInformation <tds:GetCapabilities/>" /\
  classify "<tds:GetCapabilities/>" = GetCapabilities /\
  classify "SOAPAction: GetDeviceInformation <tds:GetCapabilities/>"
    = GetDeviceInformation /\
  (rank GetDeviceInformation <= rank GetCapabilities)%nat.
Proof.
  assert (H : Substring "<tds:GetCapabilities/>"
                "SOAPAction: GetDeviceInformation <tds:GetCapabilities/>")
    by (exists "SOAPAction: GetDeviceInformation ", EmptyString; reflexivity).
  split; [exact H|]. split; [reflexivity|]. split; [reflexivity|].
  exact (classify_embedding "<tds:GetCapabilities/>"
           "SOAPAction: GetDeviceInformation <tds:GetCapabilities/>" H).
Defined.

(** X2.  When the identity strings of the object are strings that an XML
    reader takes as they are written, the response to a request classified
    as GetDeviceInformation carries the manufacturer, the model, the
    firmware version and the serial number of the object, and its UUID as
    HardwareId; the strings of the constructor are such strings. *)
Theorem device_information_response
        (now : tm) (request : string) (self : OnvifServer) :
  classify request = GetDeviceInformation ->
  xml_plain (manufacturer self) = true ->
  xml_plain (model self) = true ->
  xml_plain (firmware_version self) = true ->
  xml_plain (serial_number self) = true ->
  xml_plain (device_uuid self) = true ->
  let response := fst (processRequest now request self) in
  element_path (device_information_path ["tds:Manufacturer"]) response
    = Some (manufacturer self) /\
  element_path (device_information_path ["tds:Model"]) response
    = Some (model self) /\
  element_path (device_information_path ["tds:FirmwareVersion"]) response
    = Some (firmware_version self) /\
  element_path (device_information_path ["tds:SerialNumber"]) response
    = Some (serial_number self) /\
  element_path (device_information_path ["tds:HardwareId"]) response
    = Some (device_uuid self).
Proof.
  intros Hc Hma Hmo Hfw Hsn Hid. cbv zeta.
  apply (xml_plain_lacks "<" _ eq_refl) in Hma, Hmo, Hfw, Hsn, Hid.
  rewrite processRequest_respond, Hc.
  cbv beta iota zeta delta [respond handleGetDeviceInformation fst generateSoapEnvelope].
  revert Hma Hmo Hfw Hsn Hid.
  generalize (manufacturer self) (model self) (firmware_version self)
             (serial_number self) (device_uuid self).
  intros ma mo fw sn id Hma Hmo Hfw Hsn Hid.
  match goal with |- context [element_path _ ?s] => normal_form s end.
  cbv [device_information_path List.app element_path element_text].
  repeat split; repeat scan_step; rewrite ?append_nil_r; reflexivity.
Qed.

(** X2, at the object of the constructor, for every port. *)
Lemma device_information_response_witness :
  classify "<tds:GetDeviceInformation/>" = GetDeviceInformation /\
  xml_plain (manufacturer (OnvifServer_new 8080)) = true /\
  xml_plain (device_uuid (OnvifServer_new 8080)) = true /\
  element_path (device_information_path ["tds:Manufacturer"])
    (fst (processRequest epoch "<tds:GetDeviceInformation/>" (OnvifServer_new 8080)))
  = Some "Sample Manufacturer" /\
  element_path (device_information_path ["tds:HardwareId"])
    (fst (processRequest epoch "<tds:GetDeviceInformation/>" (OnvifServer_new 8080)))
  = Some "urn:uuid:12345678-1234-1234-1234-123456789012".
Proof.
  split; [reflexivity|]. split; [reflexivity|]. split; [reflexivity|].
  destruct (device_information_response epoch "<tds:GetDeviceInformation/>"
              (OnvifServer_new 8080) eq_refl eq_refl eq_refl eq_refl eq_refl
              eq_refl) as (H1 & _ & _ & _ & H5).
  split; [exact H1 | exact H5].
Defined.

(** X3.  The response to a request classified as GetCapabilities gives the
    Device, Media and PTZ services the addresses
    http://localhost:<port>/onvif/device_service, .../media_service and
    .../ptz_service, for every value of [port], and says that TLS 1.2 is
    supported and TLS 1.1 is not. *)
Theorem capabilities_response (now : tm) (request : string) (self : OnvifServer) :
  classify request = GetCapabilities ->
  let response := fst (processRequest now request self) in
  let address := fun service =>
    Some ("http://localhost:" ++ to_string (port self) ++ "/onvif/" ++ service) in
  element_path (capabilities_path ["tds:Device"; "tds:XAddr"]) response
    = address "device_service" /\
  element_path (capabilities_path ["tds:Media"; "tds:XAddr"]) response
    = address "media_service" /\
  element_path (capabilities_path ["tds:PTZ"; "tds:XAddr"]) response
    = address "ptz_service" /\
  element_path (capabilities_path ["tds:Device"; "tds:Security"; "tds:TLS1.2"])
    response = Some "true" /\
  element_path (capabilities_path ["tds:Device"; "tds:Security"; "tds:TLS1.1"])
    response = Some "false" /\
  occurrences "<tds:XAddr>" response = 3%nat.
Proof.
  intros Hc. cbv zeta.
  rewrite processRequest_respond, Hc.
  cbv beta iota zeta delta [respond handleGetCapabilities fst generateSoapEnvelope].
  pose proof (to_string_lacks "<" (port self) eq_refl) as HD.
  revert HD. generalize (to_string (port self)). intros D HD.
  match goal with |- context [occurrences _ ?s] => normal_form s end.
  cbv [capabilities_path List.app element_path element_text].
  repeat split; repeat scan_step; reflexivity.
Qed.

(** X3, at the port 8080 of [main]. *)
Lemma capabilities_response_witness :
  classify "<tds:GetCapabilities/>" = GetCapabilities /\
  element_path (capabilities_path ["tds:Media"; "tds:XAddr"])
    (fst (processRequest epoch "<tds:GetCapabilities/>" (OnvifServer_new 8080)))
  = Some "http://localhost:8080/onvif/media_service".
Proof.
  split; [reflexivity|].
  destruct (capabilities_response epoch "<tds:GetCapabilities/>"
              (OnvifServer_new 8080) eq_refl) as (_ & H & _).
  exact H.
Defined.

(* ===================================================================== *)
(** ** The clock helper                                                   *)
(* ===================================================================== *)

Lemma to_int_string (z : Z) :
  to_string z = NilEmpty.string_of_int (Z.to_int z).
Proof.
  unfold to_string, NilZero.string_of_int, NilEmpty.string_of_int,
    NilZero.string_of_uint.
  destruct z as [|p|p]; cbn [Z.to_int]; try reflexivity;
    pose proof (DecimalPos.Unsigned.to_uint_nonnil p) as Hn;
    destruct (Pos.to_uint p); try reflexivity; now elim Hn.
Qed.

(** What [std::to_string] prints reads back as the number printed. *)
Lemma read_int_to_string (z : Z) : read_int (to_string z) = Some z.
Proof.
  unfold read_int. rewrite to_int_string, NilEmpty.isi. cbn [option_map].
  now rewrite DecimalZ.of_to.
Qed.

Lemma to_string_injective (a b : Z) : to_string a = to_string b -> a = b.
Proof.
  intros H. apply (f_equal read_int) in H.
  rewrite !read_int_to_string in H. now injection H.
Qed.

Lemma to_string_nonneg (z : Z) :
  0 <= z -> exists d, to_string z = NilEmpty.string_of_uint d /\
                      Z.of_int (Decimal.Pos d) = z.
Proof.
  intros H. exists (match Z.to_int z with Decimal.Pos d => d | Decimal.Neg d => d end).
  rewrite to_int_string. pose proof (DecimalZ.of_to z) as Hz.
  destruct z as [|p|p]; try lia; cbn [Z.to_int] in *; split; try reflexivity;
    exact Hz.
Qed.

Lemma to_string_nonneg_lacks (c : ascii) (z : Z) :
  0 <= z -> lacks c "0123456789" = true -> lacks c (to_string z) = true.
Proof.
  intros Hz Hc. destruct (to_string_nonneg z Hz) as (d & -> & _).
  now apply string_of_uint_lacks.
Qed.

Lemma put2_lacks (c : ascii) (n : Z) :
  0 <= n -> lacks c "0123456789" = true -> lacks c (put2 n) = true.
Proof.
  intros Hn Hc. unfold put2. pose proof (to_string_nonneg_lacks c n Hn Hc) as H.
  destruct (n <? 10); [|exact H].
  change ("0" ++ to_string n) with (String "0" (to_string n)).
  rewrite lacks_cons, H. rewrite lacks_cons in Hc.
  apply andb_prop in Hc as [-> _]. reflexivity.
Qed.

Lemma read_int_put2 (n : Z) : 0 <= n -> read_int (put2 n) = Some n.
Proof.
  intros Hn. unfold put2. destruct (n <? 10); [|apply read_int_to_string].
  destruct (to_string_nonneg n Hn) as (d & -> & Hd).
  change ("0" ++ NilEmpty.string_of_uint d)
    with (String "0" (NilEmpty.string_of_uint d)).
  unfold read_int, NilEmpty.int_of_string.
  cbn [NilEmpty.uint_of_string]. rewrite NilEmpty.usu.
  cbn [uint_of_char option_map].
  change (Ascii.eqb "0" "-") with false. cbn [option_map]. f_equal. exact Hd.
Qed.

Lemma put2_injective (a b : Z) : 0 <= a -> 0 <= b -> put2 a = put2 b -> a = b.
Proof.
  intros Ha Hb H. apply (f_equal read_int) in H.
  rewrite !read_int_put2 in H by assumption. now injection H.
Qed.

(** Two texts that end at the same character are the same texts. *)
Lemma append_split (c : ascii) (a1 a2 r1 r2 : string) :
  lacks c a1 = true -> lacks c a2 = true ->
  a1 ++ String c r1 = a2 ++ String c r2 -> a1 = a2 /\ r1 = r2.
Proof.
  revert a2; induction a1 as [|x a1 IH]; intros [|y a2]; cbn [append];
    rewrite ?lacks_cons; intros H1 H2 E.
  - injection E as ->. now split.
  - injection E as <- _. rewrite Ascii.eqb_refl in H2. discriminate.
  - injection E as -> _. rewrite Ascii.eqb_refl in H1. discriminate.
  - injection E as -> E.
    apply andb_prop in H1 as [_ H1]. apply andb_prop in H2 as [_ H2].
    destruct (IH a2 H1 H2 E) as [-> ->]. now split.
Qed.

(** A property checked on each number of a range holds on the range. *)
Lemma range_check (P : Z -> bool) (lo : Z) (n : nat) :
  forallb (fun k => P (lo + Z.of_nat k)) (seq 0 n) = true ->
  forall z, lo <= z < lo + Z.of_nat n -> P z = true.
Proof.
  intros H z Hz. rewrite forallb_forall in H.
  specialize (H (Z.to_nat (z - lo))).
  replace (lo + Z.of_nat (Z.to_nat (z - lo))) with z in H by lia.
  apply H. apply in_seq. lia.
Qed.

Lemma to_string_length4 (y : Z) :
  1000 <= y <= 9999 -> String.length (to_string y) = 4%nat.
Proof.
  intros H. apply Nat.eqb_eq.
  apply (range_check (fun z => Nat.eqb (String.length (to_string z)) 4) 1000 (Z.to_nat 9000));
    [vm_compute; reflexivity | lia].
Qed.

Lemma put2_length (n : Z) : 0 <= n <= 99 -> String.length (put2 n) = 2%nat.
Proof.
  intros H. apply Nat.eqb_eq.
  apply (range_check (fun z => Nat.eqb (String.length (put2 z)) 2) 0 100);
    [vm_compute; reflexivity | lia].
Qed.

Lemma length_append (a b : string) :
  String.length (a ++ b) = (String.length a + String.length b)%nat.
Proof. induction a as [|c a IH]; cbn [append String.length]; [reflexivity | now rewrite IH]. Qed.

(** X4.  For an instant of a year of four digits, [getCurrentTime] returns
    twenty characters laid out as YYYY-MM-DDTHH:MM:SSZ: the four characters
    at 0 spell the year, the two at 5 the month counted from 1, the two at 8
    the day, the two at 11 the hour, the two at 14 the minute and the two at
    17 the second, with the separators between them; and it leaves the
    object alone. *)
Theorem getCurrentTime_layout (now : tm) (self : OnvifServer) :
  calendar_time now ->
  let text := fst (getCurrentTime now self) in
  String.length text = 20%nat /\
  read_int (substring 0 4 text) = Some (tm_year now + 1900) /\
  get 4 text = Some "-"%char /\
  read_int (substring 5 2 text) = Some (tm_mon now + 1) /\
  get 7 text = Some "-"%char /\
  read_int (substring 8 2 text) = Some (tm_mday now) /\
  get 10 text = Some "T"%char /\
  read_int (substring 11 2 text) = Some (tm_hour now) /\
  get 13 text = Some ":"%char /\
  read_int (substring 14 2 text) = Some (tm_min now) /\
  get 16 text = Some ":"%char /\
  read_int (substring 17 2 text) = Some (tm_sec now) /\
  get 19 text = Some "Z"%char /\
  snd (getCurrentTime now self) = self.
Proof.
  intros (Hy & Hmo & Hd & Hh & Hmi & Hs). cbv zeta.
  unfold getCurrentTime. cbn [fst snd].
  pose proof (to_string_length4 (tm_year now + 1900) Hy) as Ly.
  pose proof (put2_length (tm_mon now + 1) ltac:(lia)) as Lmo.
  pose proof (put2_length (tm_mday now) ltac:(lia)) as Ld.
  pose proof (put2_length (tm_hour now) ltac:(lia)) as Lh.
  pose proof (put2_length (tm_min now) ltac:(lia)) as Lmi.
  pose proof (put2_length (tm_sec now) ltac:(lia)) as Ls.
  pose proof (read_int_to_string (tm_year now + 1900)) as Ry.
  pose proof (read_int_put2 (tm_mon now + 1) ltac:(lia)) as Rmo.
  pose proof (read_int_put2 (tm_mday now) ltac:(lia)) as Rd.
  pose proof (read_int_put2 (tm_hour now) ltac:(lia)) as Rh.
  pose proof (read_int_put2 (tm_min now) ltac:(lia)) as Rmi.
  pose proof (read_int_put2 (tm_sec now) ltac:(lia)) as Rs.
  revert Ly Lmo Ld Lh Lmi Ls Ry Rmo Rd Rh Rmi Rs.
  generalize (to_string (tm_year now + 1900)) (put2 (tm_mon now + 1))
             (put2 (tm_mday now)) (put2 (tm_hour now)) (put2 (tm_min now))
             (put2 (tm_sec now)).
  intros Y Mo D H Mi S Ly Lmo Ld Lh Lmi Ls Ry Rmo Rd Rh Rmi Rs.
  destruct Y as [|y1 [|y2 [|y3 [|y4 [|? ?]]]]]; try discriminate Ly.
  destruct Mo as [|m1 [|m2 [|? ?]]]; try discriminate Lmo.
  destruct D as [|d1 [|d2 [|? ?]]]; try discriminate Ld.
  destruct H as [|h1 [|h2 [|? ?]]]; try discriminate Lh.
  destruct Mi as [|i1 [|i2 [|? ?]]]; try discriminate Lmi.
  destruct S as [|s1 [|s2 [|? ?]]]; try discriminate Ls.
  cbn [append substring get String.length].
  repeat split; assumption.
Qed.

(** X4, at noon of the first day of 2024. *)
Lemma getCurrentTime_layout_witness :
  calendar_time noon_2024 /\
  fst (getCurrentTime noon_2024 (OnvifServer_new 8080)) = "2024-01-01T12:00:00Z" /\
  read_int (substring 5 2 (fst (getCurrentTime noon_2024 (OnvifServer_new 8080))))
    = Some 1 /\
  read_int (substring 11 2 (fst (getCurrentTime noon_2024 (OnvifServer_new 8080))))
    = Some 12.
Proof.
  assert (H : calendar_time noon_2024)
    by (unfold calendar_time, noon_2024; simpl; lia).
  split; [exact H|]. split; [reflexivity|].
  destruct (getCurrentTime_layout noon_2024 (OnvifServer_new 8080) H)
    as (_ & _ & _ & Hmo & _ & _ & _ & Hh & _).
  split; [exact Hmo | exact Hh].
Defined.

(** X5.  [getCurrentTime] loses nothing: two calendar instants that it
    prints alike agree in year, month, day, hour, minute and second. *)
Theorem getCurrentTime_injective (t1 t2 : tm) (self : OnvifServer) :
  calendar_time t1 -> calendar_time t2 ->
  fst (getCurrentTime t1 self) = fst (getCurrentTime t2 self) ->
  t1 = t2.
Proof.
  intros (Hy1 & Hmo1 & Hd1 & Hh1 & Hmi1 & Hs1)
         (Hy2 & Hmo2 & Hd2 & Hh2 & Hmi2 & Hs2).
  unfold getCurrentTime. cbn [fst].
  intros E.
  apply (append_split "-") in E as [Ey E];
    [| apply to_string_nonneg_lacks; [lia | reflexivity] ..].
  apply (append_split "-") in E as [Emo E];
    [| apply put2_lacks; [lia | reflexivity] ..].
  apply (append_split "T") in E as [Ed E];
    [| apply put2_lacks; [lia | reflexivity] ..].
  apply (append_split ":") in E as [Eh E];
    [| apply put2_lacks; [lia | reflexivity] ..].
  apply (append_split ":") in E as [Emi E];
    [| apply put2_lacks; [lia | reflexivity] ..].
  apply (append_split "Z") in E as [Es _];
    [| apply put2_lacks; [lia | reflexivity] ..].
  apply to_string_injective in Ey.
  apply put2_injective in Emo, Ed, Eh, Emi, Es; try lia.
  destruct t1, t2; cbn in *. f_equal; lia.
Qed.

(** X5, at noon of the first day of 2024, and one second later. *)
Lemma getCurrentTime_injective_witness :
  calendar_time noon_2024 /\
  fst (getCurrentTime noon_2024 (OnvifServer_new 8080)) =
  fst (getCurrentTime (mk_tm 0 0 12 1 0 124) (OnvifServer_new 8080)) /\
  noon_2024 = mk_tm 0 0 12 1 0 124 /\
  fst (getCurrentTime noon_2024 (OnvifServer_new 8080)) <>
  fst (getCurrentTime (mk_tm 1 0 12 1 0 124) (OnvifServer_new 8080)).
Proof.
  assert (H1 : calendar_time noon_2024)
    by (unfold calendar_time, noon_2024; simpl; lia).
  assert (H2 : calendar_time (mk_tm 1 0 12 1 0 124))
    by (unfold calendar_time; simpl; lia).
  split; [exact H1|]. split; [reflexivity|]. split.
  - exact (getCurrentTime_injective noon_2024 (mk_tm 0 0 12 1 0 124)
             (OnvifServer_new 8080) H1 H1 eq_refl).
  - intros E.
    pose proof (getCurrentTime_injective noon_2024 (mk_tm 1 0 12 1 0 124)
                  (OnvifServer_new 8080) H1 H2 E) as H.
    discriminate H.
Defined.

(* ===================================================================== *)
(** ** The transport                                                      *)
(* ===================================================================== *)

Lemma prefix_length (m l : string) :
  prefix m l = true -> (String.length m <= String.length l)%nat.
Proof.
  intros H. rewrite (prefix_split _ _ H), length_append. lia.
Qed.

Lemma prefix_false_app (m l t : string) :
  prefix m l = false -> (String.length m <= String.length l)%nat ->
  prefix m (l ++ t) = false.
Proof.
  revert l; induction m as [|a m IH]; intros [|b l]; cbn [prefix append String.length];
    try discriminate; try lia.
  destruct (ascii_dec a b); [|reflexivity].
  intros H L. apply IH; [exact H | lia].
Qed.

Lemma after_length (m l r : string) :
  after m l = Some r -> (String.length m <= String.length l)%nat.
Proof.
  induction l as [|c l IH]; unfold after; fold after.
  - destruct (prefix m EmptyString) eqn:Hp; [|discriminate].
    intros _. now apply prefix_length.
  - destruct (prefix m (String c l)) eqn:Hp.
    + intros _. now apply prefix_length.
    + intros H. specialize (IH H). cbn [String.length]. lia.
Qed.

Lemma before_length (m l r : string) :
  before m l = Some r -> (String.length m <= String.length l)%nat.
Proof.
  revert r; induction l as [|c l IH]; intros r; unfold before; fold before.
  - destruct (prefix m EmptyString) eqn:Hp; [|discriminate].
    intros _. now apply prefix_length.
  - destruct (prefix m (String c l)) eqn:Hp.
    + intros _. now apply prefix_length.
    + destruct (before m l) as [r'|] eqn:B; [|discriminate].
      intros _. specialize (IH r' eq_refl). cbn [String.length]. lia.
Qed.

(** The first occurrence in a text is the first occurrence in any longer
    text. *)
Lemma after_found (m l r t : string) :
  after m l = Some r -> after m (l ++ t) = Some (r ++ t).
Proof.
  induction l as [|c l IH].
  - unfold after at 1. destruct (prefix m EmptyString) eqn:Hp; [|discriminate].
    intros [= <-]. destruct m; [|discriminate].
    cbn [append strip]. now destruct t.
  - unfold after at 1; fold after.
    change (String c l ++ t) with (String c (l ++ t)).
    unfold after at 2; fold after.
    change (String c (l ++ t)) with (String c l ++ t).
    destruct (prefix m (String c l)) eqn:Hp.
    + intros [= <-]. now rewrite prefix_mono, strip_mono.
    + intros H. rewrite prefix_false_app; [now apply IH | exact Hp |].
      pose proof (after_length _ _ _ H). cbn [String.length]. lia.
Qed.

Lemma before_found (m l r t : string) :
  before m l = Some r -> before m (l ++ t) = Some r.
Proof.
  revert r; induction l as [|c l IH]; intros r.
  - unfold before at 1. destruct (prefix m EmptyString) eqn:Hp; [|discriminate].
    intros [= <-]. destruct m; [|discriminate].
    cbn [append]. now destruct t.
  - unfold before at 1; fold before.
    change (String c l ++ t) with (String c (l ++ t)).
    unfold before at 2; fold before.
    change (String c (l ++ t)) with (String c l ++ t).
    destruct (prefix m (String c l)) eqn:Hp.
    + intros [= <-]. now rewrite prefix_mono.
    + destruct (before m l) as [r'|] eqn:B; [|discriminate].
      intros [= <-]. rewrite prefix_false_app;
        [now rewrite (IH r' eq_refl) | exact Hp |].
      pose proof (before_length _ _ _ B). cbn [String.length]. lia.
Qed.

Lemma after_skip_lacks (a : ascii) (m' d t : string) :
  lacks a d = true -> after (String a m') (d ++ t) = after (String a m') t.
Proof.
  intros H. apply after_skip; [discriminate | now apply lacks_clear].
Qed.

Lemma before_skip_lacks (a : ascii) (m' d t : string) :
  lacks a d = true ->
  before (String a m') (d ++ t) = option_map (append d) (before (String a m') t).
Proof.
  intros H. apply before_skip; [discriminate | now apply lacks_clear].
Qed.

(** Reads a literal piece in which the marker occurs. *)
Ltac found_after :=
  match goal with
  | |- context [after ?m (?l ++ ?t)] =>
      let v := eval vm_compute in (after m l) in
      match v with
      | Some ?r => rewrite (after_found m l r t) by (vm_compute; reflexivity)
      end
  end; cbv beta iota.

Ltac found_before :=
  match goal with
  | |- context [before ?m (?l ++ ?t)] =>
      let v := eval vm_compute in (before m l) in
      match v with
      | Some ?r => rewrite (before_found m l r t) by (vm_compute; reflexivity)
      end
  end; cbv beta iota.

(** The response of the transport around a SOAP response, read as HTTP. *)
Lemma http_response_text (soap D : string) :
  lacks (ascii_of_nat 13) D = true ->
  lacks "C" D = true ->
  let http :=
    "HTTP/1.1 200 OK" ++ cr ++ nl ++
    "Content-Type: application/soap+xml; charset=utf-8" ++ cr ++ nl ++
    "Content-Length: " ++ D ++ cr ++ nl ++
    "Connection: close" ++ cr ++ nl ++
    cr ++ nl ++ soap in
  prefix ("HTTP/1.1 200 OK" ++ cr ++ nl) http = true /\
  http_header "Content-Type" http = Some "application/soap+xml; charset=utf-8" /\
  http_header "Content-Length" http = Some D /\
  http_header "Connection" http = Some "close" /\
  http_body http = Some soap.
Proof.
  intros Hr HC. cbv zeta.
  unfold http_header, http_body, cr.
  match goal with |- context [after _ ?s] => normal_form s end.
  split; [apply prefix_mono; vm_compute; reflexivity|].
  split; [|split; [|split]].
  - found_after.
    found_before. reflexivity.
  - found_after.
    match goal with
    | |- context [EmptyString ++ ?x] => change (EmptyString ++ x) with x
    end.
    change (String (ascii_of_nat 13) EmptyString ++ nl)
      with (String (ascii_of_nat 13) nl).
    rewrite (before_skip_lacks _ _ _ _ Hr).
    found_before.
    cbn [option_map]. now rewrite append_nil_r.
  - rewrite after_app by (vm_compute; reflexivity).
    match goal with
    | |- context [after ?m ?l] =>
        match l with
        | String _ _ =>
            let v := eval vm_compute in (after m l) in
            change (after m l) with v
        end
    end.
    cbv beta iota.
    change ("Connection" ++ ": ") with (String "C" "onnection: ").
    rewrite (after_skip_lacks _ _ _ _ HC).
    found_after.
    found_before. reflexivity.
  - rewrite after_app by (vm_compute; reflexivity).
    match goal with
    | |- context [after ?m ?l] =>
        match l with
        | String _ _ =>
            let v := eval vm_compute in (after m l) in
            change (after m l) with v
        end
    end.
    cbv beta iota.
    change (String (ascii_of_nat 13) EmptyString ++ nl ++
            String (ascii_of_nat 13) EmptyString ++ nl)
      with (String (ascii_of_nat 13)
              (nl ++ String (ascii_of_nat 13) EmptyString ++ nl)).
    rewrite (after_skip_lacks _ _ _ _ Hr).
    found_after. reflexivity.
Qed.

Lemma read_positive (data : string) :
  data <> EmptyString -> (read_result 4095 (read_delivered data) >? 0) = true.
Proof.
  destruct data as [|c data]; [now intros H; elim H|]. intros _.
  unfold read_result, delivered.
  change (substring 0 4095 (String c data))
    with (String c (substring 0 4094 data)).
  cbn [String.length]. apply Z.gtb_lt. lia.
Qed.

Lemma substring_zero_byte (n : nat) (a b : string) (c : ascii) :
  (String.length a < n)%nat ->
  exists b', substring 0 n (a ++ String c b) = a ++ String c b'.
Proof.
  revert n; induction a as [|x a IH]; intros n H.
  - destruct n as [|n]; [cbn in H; lia|].
    exists (substring 0 n b). reflexivity.
  - destruct n as [|n]; [cbn in H; lia|].
    cbn [String.length] in H.
    destruct (IH n ltac:(lia)) as (b' & E).
    exists b'. cbn [append substring]. now rewrite E.
Qed.

Lemma handleClient_delivered
      (now : tm) (fd : Z) (data : string) (self : OnvifServer) :
  data <> EmptyString ->
  sent (fst (handleClient now fd (read_delivered data) self)) =
  [ "HTTP/1.1 200 OK" ++ cr ++ nl ++
    "Content-Type: application/soap+xml; charset=utf-8" ++ cr ++ nl ++
    "Content-Length: " ++
    to_string (Z.of_nat (String.length
      (fst (processRequest now (upto NUL (substring 0 4095 data)) self)))) ++
    cr ++ nl ++
    "Connection: close" ++ cr ++ nl ++
    cr ++ nl ++
    fst (processRequest now (upto NUL (substring 0 4095 data)) self) ].
Proof.
  intros H. unfold handleClient. rewrite (read_positive data H).
  unfold delivered.
  destruct (processRequest now (upto NUL (substring 0 4095 data)) self)
    as [soap self1].
  reflexivity.
Qed.

(** X6.  When [read] delivers at least one byte, [handleClient] sends one
    HTTP response: status 200 OK, whatever the request, the content type
    application/soap+xml, Connection: close, a Content-Length that spells
    the length of the body in decimal, and as body the response of
    [processRequest] to the bytes read, up to the first zero byte and at
    most 4095 of them. *)
Theorem handleClient_response
        (now : tm) (fd : Z) (data : string) (self : OnvifServer) :
  data <> EmptyString ->
  let request := upto NUL (substring 0 4095 data) in
  let body := fst (processRequest now request self) in
  exists http,
    sent (fst (handleClient now fd (read_delivered data) self)) = [http] /\
    prefix ("HTTP/1.1 200 OK" ++ cr ++ nl) http = true /\
    http_header "Content-Type" http
      = Some "application/soap+xml; charset=utf-8" /\
    http_header "Content-Length" http
      = Some (to_string (Z.of_nat (String.length body))) /\
    read_int (to_string (Z.of_nat (String.length body)))
      = Some (Z.of_nat (String.length body)) /\
    http_header "Connection" http = Some "close" /\
    http_body http = Some body.
Proof.
  intros H. cbv zeta. eexists. split; [apply (handleClient_delivered _ _ _ _ H)|].
  pose proof (http_response_text
    (fst (processRequest now (upto NUL (substring 0 4095 data)) self))
    (to_string (Z.of_nat (String.length
      (fst (processRequest now (upto NUL (substring 0 4095 data)) self)))))
    (to_string_lacks (ascii_of_nat 13) _ eq_refl)
    (to_string_lacks "C" _ eq_refl)) as T.
  cbv zeta in T. destruct T as (T1 & T2 & T3 & T4 & T5).
  repeat split; try assumption. apply read_int_to_string.
Qed.

(** X6, at an HTTP request for the device information. *)
Lemma handleClient_response_witness :
  "POST /onvif/device_service <tds:GetDeviceInformation/>" <> EmptyString /\
  exists http,
    sent (fst (handleClient epoch 4
                 (read_delivered "POST /onvif/device_service <tds:GetDeviceInformation/>")
                 (OnvifServer_new 8080))) = [http] /\
    http_header "Content-Length" http = Some "657".
Proof.
  assert (H : "POST /onvif/device_service <tds:GetDeviceInformation/>" <> EmptyString)
    by discriminate.
  split; [exact H|].
  destruct (handleClient_response epoch 4
              "POST /onvif/device_service <tds:GetDeviceInformation/>"
              (OnvifServer_new 8080) H) as (http & Hs & _ & _ & Hl & _).
  exists http. split; [exact Hs|]. rewrite Hl. vm_compute. reflexivity.
Defined.

(** X7.  What follows the first zero byte of the bytes read has no part in
    the response: the request that [processRequest] sees ends before that
    byte. *)
Theorem handleClient_zero_byte
        (now : tm) (fd : Z) (d1 d2 : string) (self : OnvifServer) :
  lacks NUL d1 = true ->
  (String.length d1 < 4095)%nat ->
  exists http,
    sent (fst (handleClient now fd (read_delivered (d1 ++ String NUL d2)) self))
      = [http] /\
    sent (fst (handleClient now fd (read_delivered (d1 ++ String NUL EmptyString)) self))
      = [http] /\
    http_body http = Some (fst (processRequest now d1 self)).
Proof.
  intros Hz Hl.
  assert (Hr : forall d, upto NUL (substring 0 4095 (d1 ++ String NUL d)) = d1).
  { intros d. destruct (substring_zero_byte 4095 d1 d NUL Hl) as (b' & ->).
    now apply upto_stop. }
  assert (Hn : forall d, d1 ++ String NUL d <> EmptyString)
    by (intros d; destruct d1; discriminate).
  eexists. split; [|split].
  - rewrite (handleClient_delivered _ _ _ _ (Hn d2)), Hr. reflexivity.
  - rewrite (handleClient_delivered _ _ _ _ (Hn EmptyString)), Hr. reflexivity.
  - apply (http_response_text (fst (processRequest now d1 self)));
      apply to_string_lacks; reflexivity.
Qed.

(** X7, at a request with an operation name behind a zero byte. *)
Lemma handleClient_zero_byte_witness :
  lacks NUL "POST / " = true /\
  (String.length "POST / " < 4095)%nat /\
  exists http,
    sent (fst (handleClient epoch 4
                 (read_delivered ("POST / " ++ String NUL "<trt:GetProfiles/>"))
                 (OnvifServer_new 8080))) = [http] /\
    http_body http = Some (generateSoapEnvelope fault_body).
Proof.
  assert (Hl : (String.length "POST / " < 4095)%nat) by (cbn; lia).
  split; [reflexivity|]. split; [exact Hl|].
  destruct (handleClient_zero_byte epoch 4 "POST / " "<trt:GetProfiles/>"
              (OnvifServer_new 8080) eq_refl Hl) as (http & H1 & _ & H3).
  exists http. split; [exact H1 | exact H3].
Defined.


(** X9.  [start] returns true exactly when [socket], [bind] and [listen]
    all succeed; it sets [running] in that case and in no other, records
    the descriptor that [socket] returned, and touches neither the port nor
    the identity nor the profiles. *)
Theorem start_outcome (socket_r bind_r listen_r : Z) (self : OnvifServer) :
  let ok := fst (fst (start socket_r bind_r listen_r self)) in
  let self' := snd (start socket_r bind_r listen_r self) in
  (ok = true <-> 0 <= socket_r /\ 0 <= bind_r /\ 0 <= listen_r) /\
  running self' = ok || running self /\
  server_socket self' = Some socket_r /\
  port self' = port self /\
  device_uuid self' = device_uuid self /\
  device_name self' = device_name self /\
  manufacturer self' = manufacturer self /\
  model self' = model self /\
  serial_number self' = serial_number self /\
  firmware_version self' = firmware_version self /\
  media_profiles self' = media_profiles self.
Proof.
  cbv zeta. unfold start.
  destruct (Z.ltb_spec socket_r 0); [|destruct (Z.ltb_spec bind_r 0);
    [|destruct (Z.ltb_spec listen_r 0)]];
    cbn [fst snd set_server_socket set_running running server_socket port
         device_uuid device_name manufacturer model serial_number
         firmware_version media_profiles orb];
    repeat split; try reflexivity; try discriminate; try lia;
    intros (? & ? & ?); lia.
Qed.

(** X10.  When [socket] succeeds and [bind] or [listen] fails, [start]
    closes the descriptor and keeps it in [server_socket], so that [stop],
    and with it the destructor, closes the same descriptor again. *)
Theorem start_failure_closes_twice
        (socket_r bind_r listen_r : Z) (self : OnvifServer) :
  0 <= socket_r ->
  bind_r < 0 \/ listen_r < 0 ->
  let trace := snd (fst (start socket_r bind_r listen_r self)) in
  let self' := snd (start socket_r bind_r listen_r self) in
  fst (fst (start socket_r bind_r listen_r self)) = false /\
  closed trace = [socket_r] /\
  exists self'', stop self' = Some ([Close socket_r], self'') /\
                 running self'' = false.
Proof.
  intros Hs Hf. cbv zeta. unfold start.
  destruct (Z.ltb_spec socket_r 0); [lia|].
  assert (G : (socket_r >=? 0) = true) by (apply Z.geb_le; lia).
  destruct (Z.ltb_spec bind_r 0); [|destruct (Z.ltb_spec listen_r 0); [|lia]];
    cbn [fst snd closed]; (split; [reflexivity|]); (split; [reflexivity|]);
    unfold stop; cbn [server_socket set_running set_server_socket];
    rewrite G; eexists; split; reflexivity.
Qed.

(** X10, at a port that is already bound. *)
Lemma start_failure_closes_twice_witness :
  0 <= 3 /\ (-1 < 0 \/ 0 < 0) /\
  closed (snd (fst (start 3 (-1) 0 (OnvifServer_new 8080)))) = [3] /\
  exists self'', stop (snd (start 3 (-1) 0 (OnvifServer_new 8080)))
                 = Some ([Close 3], self'').
Proof.
  assert (H1 : 0 <= 3) by lia.
  assert (H2 : -1 < 0 \/ 0 < 0) by (left; lia).
  split; [exact H1|]. split; [exact H2|].
  destruct (start_failure_closes_twice 3 (-1) 0 (OnvifServer_new 8080) H1 H2)
    as (_ & Hc & self'' & Hstop & _).
  split; [exact Hc|]. exists self''. exact Hstop.
Defined.

(** X11.  The constructor assigns no value to [server_socket]: [stop], and
    with it the destructor, tests an unassigned member on an object that was
    never started, and a defined one after any call of [start], which it
    leaves not running. *)
Theorem stop_needs_start (p : Z) :
  stop (OnvifServer_new p) = None /\
  forall socket_r bind_r listen_r,
    exists trace self',
      stop (snd (start socket_r bind_r listen_r (OnvifServer_new p)))
        = Some (trace, self') /\
      running self' = false /\
      closed trace = if socket_r >=? 0 then [socket_r] else [].
Proof.
  split; [reflexivity|]. intros s b l. unfold start.
  destruct (s <? 0); [|destruct (b <? 0); [|destruct (l <? 0)]];
    cbn [snd]; unfold stop;
    cbn [server_socket set_running set_server_socket];
    do 2 eexists; (split; [reflexivity|]); (split; [reflexivity|]);
    destruct (s >=? 0); reflexivity.
Qed.

(** X12.  When [socket] succeeds, [start] binds the value of [port] modulo
    65536, the sixteen bits that [htons] takes: a port between 0 and 65535,
    which is [port] itself, the port that the object prints and advertises,
    exactly when [port] is between 0 and 65535. *)
Theorem start_binds_port (socket_r bind_r listen_r : Z) (self : OnvifServer) :
  0 <= socket_r ->
  let trace := snd (fst (start socket_r bind_r listen_r self)) in
  In (Bind socket_r (port self mod 65536) bind_r) trace /\
  (forall fd bound result,
     In (Bind fd bound result) trace ->
     fd = socket_r /\ bound = port self mod 65536 /\ result = bind_r) /\
  0 <= port self mod 65536 < 65536 /\
  (port self mod 65536 = port self <-> 0 <= port self < 65536) /\
  (fst (fst (start socket_r bind_r listen_r self)) = true ->
   In (Cout ("ONVIF Server started on port " ++ to_string (port self) ++ nl))
      trace).
Proof.
  intros Hs. cbv zeta. unfold start.
  destruct (Z.ltb_spec socket_r 0); [lia|].
  assert (B : 0 <= port self mod 65536 < 65536)
    by (apply Z.mod_pos_bound; lia).
  assert (I : port self mod 65536 = port self <-> 0 <= port self < 65536).
  { split; intros H0.
    - rewrite <- H0. exact B.
    - now apply Z.mod_small. }
  assert (U : forall fd bound result (rest : list event),
             (forall e, In e rest -> forall a b c, e <> Bind a b c) ->
             In (Bind fd bound result)
                (Socket socket_r :: Setsockopt socket_r ::
                 Bind socket_r (htons (port self)) bind_r :: rest) ->
             fd = socket_r /\ bound = port self mod 65536 /\ result = bind_r).
  { intros fd bound result rest Hrest [E|[E|[E|E]]]; try discriminate E.
    - injection E as <- <- <-. now repeat split.
    - now elim (Hrest _ E fd bound result). }
  destruct (bind_r <? 0); [|destruct (listen_r <? 0)];
    cbn [fst snd set_server_socket set_running port];
    (split; [unfold htons; cbn [In]; tauto|]);
    (split; [intros fd bound result; apply U; cbn [In];
             intros e He a b c; intuition (subst; discriminate)|]);
    (split; [exact B|]); (split; [exact I|]);
    try discriminate.
  intros _. cbn [In]. tauto.
Qed.

(** X12, at the port 8080 of [main], and at a port beyond sixteen bits. *)
Lemma start_binds_port_witness :
  0 <= 3 /\
  In (Bind 3 8080 0) (snd (fst (start 3 0 0 (OnvifServer_new 8080)))) /\
  In (Bind 3 8080 0) (snd (fst (start 3 0 0 (OnvifServer_new 73616)))).
Proof.
  assert (H : 0 <= 3) by lia.
  split; [exact H|]. split.
  - exact (proj1 (start_binds_port 3 0 0 (OnvifServer_new 8080) H)).
  - exact (proj1 (start_binds_port 3 0 0 (OnvifServer_new 73616) H)).
Defined.

(* ===================================================================== *)
(** ** The frame-capture tool: [connect]                                  *)
(* ===================================================================== *)

Lemma find_skip (m a t : string) :
  clear m a = true ->
  find m (a ++ t) = option_map (Nat.add (String.length a)) (find m t).
Proof.
  induction a as [|c a IH]; intros H.
  - cbn [append String.length]. now destruct (find m t).
  - cbn [clear] in H. apply andb_prop in H as [H1 H2].
    change (String c a ++ t) with (String c (a ++ t)).
    unfold find at 1; fold find.
    change (String c (a ++ t)) with (String c a ++ t).
    rewrite (mismatch_prefix _ _ t H1), (IH H2).
    now destruct (find m t).
Qed.

Lemma find_bound (m s : string) (i : nat) :
  find m s = Some i -> (i + String.length m <= String.length s)%nat.
Proof.
  revert i; induction s as [|c s IH]; intros i; unfold find; fold find.
  - destruct (prefix m EmptyString) eqn:Hp; [|discriminate].
    intros [= <-]. apply prefix_length in Hp. lia.
  - destruct (prefix m (String c s)) eqn:Hp.
    + intros [= <-]. apply prefix_length in Hp. lia.
    + destruct (find m s) as [j|]; [|discriminate].
      intros [= <-]. specialize (IH j eq_refl). cbn [String.length]. lia.
Qed.

Lemma substring_all (s : string) (n : nat) :
  (String.length s <= n)%nat -> substring 0 n s = s.
Proof.
  revert n; induction s as [|c s IH]; intros [|n] H; cbn [String.length] in *;
    try reflexivity; try lia.
  cbn [substring]. f_equal. apply IH. lia.
Qed.

Lemma substring_head (a b : string) :
  substring 0 (String.length a) (a ++ b) = a.
Proof.
  induction a as [|c a IH]; cbn [String.length append substring].
  - now destruct b.
  - now rewrite IH.
Qed.

Lemma substring_tail (a b : string) (n : nat) :
  substring (String.length a) n (a ++ b) = substring 0 n b.
Proof. induction a as [|c a IH]; [reflexivity | exact IH]. Qed.

Lemma is_empty_false (s : string) : s <> EmptyString -> Rtsp.is_empty s = false.
Proof. destruct s; [now intros H; elim H | reflexivity]. Qed.

Section Connect.

Context {cv : Rtsp.OpenCV}.

Lemma connect_plain_url (self : Rtsp.RTSPScreenshot) :
  Rtsp.is_empty (Rtsp.username self) || Rtsp.is_empty (Rtsp.password self) = true ->
  Rtsp.connect self =
  Some (Rtsp.open_stream (Rtsp.rtspUrl self)
          [Rtsp.cout ("Connecting to RTSP stream: " ++ Rtsp.rtspUrl self ++ nl)]
          self).
Proof.
  intros H. unfold Rtsp.connect.
  destruct (Rtsp.is_empty (Rtsp.username self));
    destruct (Rtsp.is_empty (Rtsp.password self)); try discriminate; reflexivity.
Qed.


(** X15.  With a user name and a password, and a URL in which [://] does
    not occur, [connect] returns false with the message of an invalid URL
    and opens nothing: the capture object is as it was. *)
Theorem connect_invalid_url (self : Rtsp.RTSPScreenshot) :
  Rtsp.username self <> EmptyString ->
  Rtsp.password self <> EmptyString ->
  found (find "://" (Rtsp.rtspUrl self)) = false ->
  ~ Substring "://" (Rtsp.rtspUrl self) /\
  Rtsp.connect self =
  Some (false, [Rtsp.cerr ("Error: Invalid RTSP URL format!" ++ nl)], self).
Proof.
  intros Hu Hp Hf. split; [now apply not_found_find_iff|].
  unfold Rtsp.connect.
  rewrite (is_empty_false _ Hu), (is_empty_false _ Hp). cbn [negb andb].
  destruct (find "://" (Rtsp.rtspUrl self)); [discriminate | reflexivity].
Qed.

(** X16.  No exception leaves [connect]: the two calls of [substr] stay
    inside the URL, whatever the URL, the user name and the password are. *)
Theorem connect_no_exception (self : Rtsp.RTSPScreenshot) :
  exists result, Rtsp.connect self = Some result.
Proof.
  unfold Rtsp.connect.
  destruct (negb (Rtsp.is_empty (Rtsp.username self)) &&
            negb (Rtsp.is_empty (Rtsp.password self))); [|eexists; reflexivity].
  destruct (find "://" (Rtsp.rtspUrl self)) as [i|] eqn:E; [|eexists; reflexivity].
  apply find_bound in E. cbn [String.length] in E.
  unfold Rtsp.substr.
  destruct (Nat.leb_spec 0 (String.length (Rtsp.rtspUrl self))); [|lia].
  destruct (Nat.leb_spec (i + 3) (String.length (Rtsp.rtspUrl self))); [|lia].
  eexists; reflexivity.
Qed.

End Connect.


(** X15, at a host name given without a scheme. *)
Lemma connect_invalid_url_witness :
  "admin" <> EmptyString /\ "123456" <> EmptyString /\
  found (find "://" "192.168.1.100:554/stream") = false /\
  Rtsp.connect (cv := Rtsp.trial)
    (Rtsp.RTSPScreenshot_new "192.168.1.100:554/stream" "admin" "123456")
  = Some (false, [Rtsp.cerr ("Error: Invalid RTSP URL format!" ++ nl)],
          Rtsp.RTSPScreenshot_new "192.168.1.100:554/stream" "admin" "123456").
Proof.
  assert (Hu : "admin" <> EmptyString) by discriminate.
  assert (Hp : "123456" <> EmptyString) by discriminate.
  split; [exact Hu|]. split; [exact Hp|]. split; [reflexivity|].
  exact (proj2 (connect_invalid_url (cv := Rtsp.trial)
                  (Rtsp.RTSPScreenshot_new "192.168.1.100:554/stream"
                     "admin" "123456") Hu Hp eq_refl)).
Defined.

(* ===================================================================== *)
(** ** The frame-capture tool: [captureScreenshot]                        *)
(* ===================================================================== *)

Section Capture.

Context {cv : Rtsp.OpenCV}.

Lemma reads_shift (k : nat) (cap : Rtsp.VideoCapture) :
  Rtsp.reads k (snd (Rtsp.cap_read cap)) = Rtsp.reads (S k) cap.
Proof.
  induction k as [|k IH]; [reflexivity|].
  cbn [Rtsp.reads] in *. now rewrite IH.
Qed.

Lemma frame_at_shift (k : nat) (cap : Rtsp.VideoCapture) :
  Rtsp.frame_at k (snd (Rtsp.cap_read cap)) = Rtsp.frame_at (S k) cap.
Proof. unfold Rtsp.frame_at. now rewrite reads_shift. Qed.

(** The loop stops at the first empty frame. *)
Lemma grab_empty (n k : nat) (frame : Rtsp.Mat) (cap : Rtsp.VideoCapture) :
  (k < n)%nat ->
  (forall j, (j < k)%nat -> Rtsp.mat_empty (Rtsp.frame_at j cap) = false) ->
  Rtsp.mat_empty (Rtsp.frame_at k cap) = true ->
  Rtsp.grab n frame cap = (false, Rtsp.frame_at k cap, Rtsp.reads (S k) cap).
Proof.
  revert k frame cap; induction n as [|n IH]; intros k frame cap Hk Hj He; [lia|].
  cbn [Rtsp.grab].
  destruct (Rtsp.cap_read cap) as [f c] eqn:R.
  assert (Ef : f = Rtsp.frame_at 0 cap) by (unfold Rtsp.frame_at; cbn [Rtsp.reads]; now rewrite R).
  assert (Ec : c = snd (Rtsp.cap_read cap)) by now rewrite R.
  destruct k as [|k].
  - rewrite Ef, He. cbn [Rtsp.reads]. now rewrite R.
  - rewrite Ef, (Hj 0%nat) by lia.
    rewrite (IH k (Rtsp.frame_at 0 cap) c); [| lia | |].
    + subst c. now rewrite frame_at_shift, reads_shift.
    + intros j Hlt. subst c. rewrite frame_at_shift. apply Hj. lia.
    + subst c. now rewrite frame_at_shift.
Qed.

(** The loop runs to its end when no frame is empty, and keeps the last
    one. *)
Lemma grab_all (n : nat) (frame : Rtsp.Mat) (cap : Rtsp.VideoCapture) :
  (forall j, (j < S n)%nat -> Rtsp.mat_empty (Rtsp.frame_at j cap) = false) ->
  Rtsp.grab (S n) frame cap = (true, Rtsp.frame_at n cap, Rtsp.reads (S n) cap).
Proof.
  revert frame cap; induction n as [|n IH]; intros frame cap Hj.
  - cbn [Rtsp.grab].
    pose proof (Hj 0%nat ltac:(lia)) as H0. unfold Rtsp.frame_at in *.
    cbn [Rtsp.reads] in *.
    destruct (Rtsp.cap_read cap) as [f c]. cbn [fst snd] in *. now rewrite H0.
  - change (Rtsp.grab (S (S n)) frame cap)
      with (let '(f, c) := Rtsp.cap_read cap in
            if Rtsp.mat_empty f then (false, f, c) else Rtsp.grab (S n) f c).
    pose proof (Hj 0%nat ltac:(lia)) as H0. unfold Rtsp.frame_at in H0.
    cbn [Rtsp.reads] in H0.
    destruct (Rtsp.cap_read cap) as [f c] eqn:R. cbn [fst] in H0. rewrite H0.
    assert (Ec : c = snd (Rtsp.cap_read cap)) by now rewrite R.
    rewrite (IH f c).
    + subst c. now rewrite frame_at_shift, reads_shift.
    + intros j Hlt. subst c. rewrite frame_at_shift. apply Hj. lia.
Qed.

(** X17.  On an open stream whose first five frames are not empty,
    [captureScreenshot] reads five frames and no more, writes the fifth
    under the file name it was given, and returns what [cv::imwrite]
    returns. *)
Theorem captureScreenshot_fifth_frame
        (filename : string) (self : Rtsp.RTSPScreenshot) (disk : Rtsp.Disk) :
  Rtsp.cap_isOpened (Rtsp.cap self) = true ->
  (forall j, (j < 5)%nat ->
     Rtsp.mat_empty (Rtsp.frame_at j (Rtsp.cap self)) = false) ->
  let written := Rtsp.imwrite filename (Rtsp.frame_at 4 (Rtsp.cap self)) disk in
  let result := Rtsp.captureScreenshot filename self disk in
  fst (fst (fst result)) = fst written /\
  snd result = snd written /\
  snd (fst result) = Rtsp.set_cap (Rtsp.reads 5 (Rtsp.cap self)) self.
Proof.
  intros Ho Hj. cbv zeta. unfold Rtsp.captureScreenshot.
  rewrite Ho. cbn [negb].
  rewrite (grab_all 4 Rtsp.Mat_new (Rtsp.cap self) Hj). cbn [negb].
  destruct (Rtsp.imwrite filename (Rtsp.frame_at 4 (Rtsp.cap self)) disk)
    as [saved disk'].
  destruct saved; repeat split.
Qed.

(** X18.  When the stream is not open, or one of its first five frames is
    empty, [captureScreenshot] returns false and writes no file; in the
    second case it has read the frames up to the empty one and no
    other. *)
Theorem captureScreenshot_failure
        (filename : string) (self : Rtsp.RTSPScreenshot) (disk : Rtsp.Disk) :
  (Rtsp.cap_isOpened (Rtsp.cap self) = false ->
   Rtsp.captureScreenshot filename self disk =
   (false, [Rtsp.cerr ("Error: RTSP stream is not open!" ++ nl)], self, disk)) /\
  (forall k,
     Rtsp.cap_isOpened (Rtsp.cap self) = true ->
     (k < 5)%nat ->
     (forall j, (j < k)%nat ->
        Rtsp.mat_empty (Rtsp.frame_at j (Rtsp.cap self)) = false) ->
     Rtsp.mat_empty (Rtsp.frame_at k (Rtsp.cap self)) = true ->
     Rtsp.captureScreenshot filename self disk =
     (false, [Rtsp.cerr ("Error: Could not capture frame from stream!" ++ nl)],
      Rtsp.set_cap (Rtsp.reads (S k) (Rtsp.cap self)) self, disk)).
Proof.
  split.
  - intros Ho. unfold Rtsp.captureScreenshot. now rewrite Ho.
  - intros k Ho Hk Hj He. unfold Rtsp.captureScreenshot.
    rewrite Ho. cbn [negb].
    now rewrite (grab_empty 5 k Rtsp.Mat_new (Rtsp.cap self) Hk Hj He).
Qed.

End Capture.

(** X17, on the trial stream, opened at an RTSP URL. *)
Lemma captureScreenshot_fifth_frame_witness :
  let self :=
    Rtsp.mk_RTSPScreenshot (cv := Rtsp.trial) (true, [1; 2; 3; 4; 5; 6; 7]%nat)
      "rtsp://camera/stream" EmptyString EmptyString in
  Rtsp.cap_isOpened (Rtsp.cap self) = true /\
  snd (Rtsp.captureScreenshot "screenshot.jpg" self
         ([] : Rtsp.Disk (OpenCV := Rtsp.trial)))
  = (([("screenshot.jpg", 5%nat)] : list (string * nat))
       : Rtsp.Disk (OpenCV := Rtsp.trial)).
Proof.
  intros self. split; [reflexivity|].
  assert (H : forall j, (j < 5)%nat ->
                Rtsp.mat_empty (Rtsp.frame_at j (Rtsp.cap self)) = false)
    by (intros j Hj; destruct j as [|[|[|[|[|j]]]]]; try reflexivity; lia).
  exact (proj1 (proj2 (captureScreenshot_fifth_frame (cv := Rtsp.trial)
           "screenshot.jpg" self [] eq_refl H))).
Defined.

(** X18, on a trial stream that ends after two frames. *)
Lemma captureScreenshot_failure_witness :
  let self :=
    Rtsp.mk_RTSPScreenshot (cv := Rtsp.trial) (true, [1; 2]%nat)
      "rtsp://camera/stream" EmptyString EmptyString in
  Rtsp.cap_isOpened (Rtsp.cap self) = true /\
  (2 < 5)%nat /\
  Rtsp.mat_empty (Rtsp.frame_at 2 (Rtsp.cap self)) = true /\
  Rtsp.captureScreenshot "screenshot.jpg" self
    ([] : Rtsp.Disk (OpenCV := Rtsp.trial))
  = (false, [Rtsp.cerr ("Error: Could not capture frame from stream!" ++ nl)],
     Rtsp.set_cap (Rtsp.reads 3 (Rtsp.cap self)) self,
     ([] : Rtsp.Disk (OpenCV := Rtsp.trial))).
Proof.
  intros self. split; [reflexivity|].
  assert (Hk : (2 < 5)%nat) by lia.
  split; [exact Hk|]. split; [reflexivity|].
  assert (H : forall j, (j < 2)%nat ->
                Rtsp.mat_empty (Rtsp.frame_at j (Rtsp.cap self)) = false)
    by (intros j Hj; destruct j as [|[|j]]; try reflexivity; lia).
  exact (proj2 (captureScreenshot_failure (cv := Rtsp.trial)
           "screenshot.jpg" self []) 2%nat eq_refl Hk H eq_refl).
Defined.

(* ===================================================================== *)
(** ** The frame-capture tool: the arguments of [main]                    *)
(* ===================================================================== *)

Lemma args_ind2 (P : list string -> Prop) :
  P [] ->
  (forall a, P [a]) ->
  (forall a v rest, P rest -> P (v :: rest) -> P (a :: v :: rest)) ->
  forall args, P args.
Proof.
  intros H0 H1 H2 args.
  assert (H : P args /\ forall a, P (a :: args)).
  { induction args as [|v rest [IH1 IH2]].
    - split; [exact H0 | exact H1].
    - split; [apply IH2|]. intros a. apply H2; [exact IH1 | apply IH2]. }
  exact (proj1 H).
Qed.

Lemma parse_arguments_cons (a v : string) (rest : list string)
      (l : Rtsp.Main.locals) :
  Rtsp.Main.parse_arguments (a :: v :: rest) l =
  if (a =? "--user")%string then
    Rtsp.Main.parse_arguments rest (Rtsp.Main.set_username v l)
  else if (a =? "--pass")%string then
    Rtsp.Main.parse_arguments rest (Rtsp.Main.set_password v l)
  else if (a =? "--output")%string then
    Rtsp.Main.parse_arguments rest (Rtsp.Main.set_outputFile v l)
  else if (a =? "--display")%string then
    Rtsp.Main.parse_arguments (v :: rest) (Rtsp.Main.set_displayMode true l)
  else Rtsp.Main.parse_arguments (v :: rest) l.
Proof. reflexivity. Qed.

Lemma option_places_cons (a v : string) (rest : list string) :
  Rtsp.Main.option_places (a :: v :: rest) =
  if ((a =? "--user") || (a =? "--pass") || (a =? "--output"))%string
  then a :: Rtsp.Main.option_places rest
  else a :: Rtsp.Main.option_places (v :: rest).
Proof. reflexivity. Qed.

Lemma complete_cons (a v : string) (rest : list string) :
  Rtsp.Main.complete (a :: v :: rest) =
  if ((a =? "--user") || (a =? "--pass") || (a =? "--output"))%string
  then Rtsp.Main.complete rest
  else Rtsp.Main.complete (v :: rest).
Proof. reflexivity. Qed.

(** The four cases of an argument, and the case of any other argument,
    with the tests of the loop decided in each. *)
Ltac option_cases a :=
  destruct (String.eqb_spec a "--user") as [->|Hu];
  [ | destruct (String.eqb_spec a "--pass") as [->|Hp];
      [ | destruct (String.eqb_spec a "--output") as [->|Ho];
          [ | destruct (String.eqb_spec a "--display") as [->|Hd] ] ] ];
  cbn [String.eqb Ascii.eqb Bool.eqb orb].

Lemma option_places_incl (args : list string) (a : string) :
  In a (Rtsp.Main.option_places args) -> In a args.
Proof.
  revert a. pattern args. apply args_ind2; clear args.
  - intros a [].
  - intros x a H. exact H.
  - intros x v rest IH1 IH2 a. rewrite option_places_cons.
    destruct ((x =? "--user") || (x =? "--pass") || (x =? "--output"))%string;
      intros [<- | H]; cbn [In]; auto.
    destruct (IH2 a H); auto.
Qed.

Lemma parse_display (args : list string) (l : Rtsp.Main.locals) :
  Rtsp.Main.displayMode (Rtsp.Main.parse_arguments args l) =
  Rtsp.Main.displayMode l ||
  existsb (fun a => (a =? "--display")%string) (Rtsp.Main.option_places args).
Proof.
  revert l. pattern args. apply args_ind2; clear args.
  - intros l. cbn. now rewrite orb_false_r.
  - intros a l. cbn [Rtsp.Main.parse_arguments Rtsp.Main.option_places existsb].
    destruct (a =? "--display")%string; cbn;
      now rewrite ?orb_true_r, ?orb_false_r.
  - intros a v rest IH1 IH2 l.
    rewrite parse_arguments_cons, option_places_cons.
    option_cases a; rewrite ?IH1, ?IH2; cbn [existsb]; try reflexivity.
    + cbn [Rtsp.Main.displayMode Rtsp.Main.set_displayMode orb].
      now rewrite orb_true_r.
    + now rewrite (proj2 (String.eqb_neq _ _) Hd).
Qed.

Lemma parse_keeps_username (args : list string) (l : Rtsp.Main.locals) :
  ~ In "--user" (Rtsp.Main.option_places args) ->
  Rtsp.Main.username (Rtsp.Main.parse_arguments args l) = Rtsp.Main.username l.
Proof.
  revert l. pattern args. apply args_ind2; clear args.
  - reflexivity.
  - intros a l _. cbn [Rtsp.Main.parse_arguments].
    now destruct (a =? "--display")%string.
  - intros a v rest IH1 IH2 l. rewrite parse_arguments_cons, option_places_cons.
    option_cases a; cbn [In]; intros H;
      rewrite ?IH1, ?IH2 by tauto; try reflexivity.
    now elim H; left.
Qed.

Lemma parse_keeps_password (args : list string) (l : Rtsp.Main.locals) :
  ~ In "--pass" (Rtsp.Main.option_places args) ->
  Rtsp.Main.password (Rtsp.Main.parse_arguments args l) = Rtsp.Main.password l.
Proof.
  revert l. pattern args. apply args_ind2; clear args.
  - reflexivity.
  - intros a l _. cbn [Rtsp.Main.parse_arguments].
    now destruct (a =? "--display")%string.
  - intros a v rest IH1 IH2 l. rewrite parse_arguments_cons, option_places_cons.
    option_cases a; cbn [In]; intros H;
      rewrite ?IH1, ?IH2 by tauto; try reflexivity.
    now elim H; left.
Qed.

Lemma parse_keeps_outputFile (args : list string) (l : Rtsp.Main.locals) :
  ~ In "--output" (Rtsp.Main.option_places args) ->
  Rtsp.Main.outputFile (Rtsp.Main.parse_arguments args l) = Rtsp.Main.outputFile l.
Proof.
  revert l. pattern args. apply args_ind2; clear args.
  - reflexivity.
  - intros a l _. cbn [Rtsp.Main.parse_arguments].
    now destruct (a =? "--display")%string.
  - intros a v rest IH1 IH2 l. rewrite parse_arguments_cons, option_places_cons.
    option_cases a; cbn [In]; intros H;
      rewrite ?IH1, ?IH2 by tauto; try reflexivity.
    now elim H; left.
Qed.

(** X19.  What the argument loop of [main] leaves in its variables: display
    mode is on exactly when it was on before or [--display] stands at a
    place where the loop looks for an option, so not when it is the value
    of [--user], [--pass] or [--output]; and the user name, the password
    and the output file keep their values when their option stands at no
    such place, as when it is not among the arguments. *)
Theorem parse_arguments_fields (args : list string) (l : Rtsp.Main.locals) :
  Rtsp.Main.displayMode (Rtsp.Main.parse_arguments args l) =
    Rtsp.Main.displayMode l ||
    existsb (fun a => (a =? "--display")%string) (Rtsp.Main.option_places args) /\
  (~ In "--user" (Rtsp.Main.option_places args) ->
   Rtsp.Main.username (Rtsp.Main.parse_arguments args l) = Rtsp.Main.username l) /\
  (~ In "--pass" (Rtsp.Main.option_places args) ->
   Rtsp.Main.password (Rtsp.Main.parse_arguments args l) = Rtsp.Main.password l) /\
  (~ In "--output" (Rtsp.Main.option_places args) ->
   Rtsp.Main.outputFile (Rtsp.Main.parse_arguments args l)
     = Rtsp.Main.outputFile l) /\
  (forall a, In a (Rtsp.Main.option_places args) -> In a args).
Proof.
  split; [apply parse_display|]. split; [apply parse_keeps_username|].
  split; [apply parse_keeps_password|]. split; [apply parse_keeps_outputFile|].
  intros a. apply option_places_incl.
Qed.

(** X19, at a user name that reads [--display]. *)
Lemma parse_arguments_fields_witness :
  ~ In "--output" (Rtsp.Main.option_places ["--user"; "--display"]) /\
  Rtsp.Main.parse_arguments ["--user"; "--display"] Rtsp.Main.initial
  = Rtsp.Main.mk_locals "screenshot.jpg" "--display" EmptyString false /\
  Rtsp.Main.outputFile
    (Rtsp.Main.parse_arguments ["--user"; "--display"] Rtsp.Main.initial)
  = "screenshot.jpg".
Proof.
  assert (H : ~ In "--output" (Rtsp.Main.option_places ["--user"; "--display"]))
    by (cbn; intros [E|[]]; discriminate E).
  split; [exact H|]. split; [reflexivity|].
  destruct (parse_arguments_fields ["--user"; "--display"] Rtsp.Main.initial)
    as (_ & _ & _ & Ho & _).
  exact (Ho H).
Defined.

(** X20.  The loop reads its arguments from left to right: when it does not
    stop inside [args], the arguments [args ++ more] are read as [args]
    first and [more] next.  So an option and its value at the end decide,
    whatever came before, and an option without its value at the end
    changes nothing. *)
Theorem parse_arguments_app (args : list string) :
  Rtsp.Main.complete args = true ->
  (forall more l,
     Rtsp.Main.parse_arguments (args ++ more) l =
     Rtsp.Main.parse_arguments more (Rtsp.Main.parse_arguments args l)) /\
  (forall file l,
     Rtsp.Main.outputFile
       (Rtsp.Main.parse_arguments (args ++ ["--output"; file]) l) = file) /\
  (forall l,
     Rtsp.Main.parse_arguments (args ++ ["--output"]) l =
     Rtsp.Main.parse_arguments args l).
Proof.
  intros Hc.
  assert (A : forall more l,
             Rtsp.Main.parse_arguments (args ++ more) l =
             Rtsp.Main.parse_arguments more (Rtsp.Main.parse_arguments args l)).
  { revert Hc. pattern args. apply args_ind2; clear args.
    - reflexivity.
    - intros a Hc [|v more] l; cbn [List.app]; [reflexivity|].
      rewrite parse_arguments_cons. cbn [Rtsp.Main.complete] in Hc.
      cbn [Rtsp.Main.parse_arguments].
      revert Hc. option_cases a; intros Hc; try discriminate; reflexivity.
    - intros a v rest IH1 IH2 Hc more l.
      rewrite complete_cons in Hc.
      change ((a :: v :: rest) ++ more)%list with (a :: v :: (rest ++ more))%list.
      rewrite !parse_arguments_cons.
      revert Hc. option_cases a; intros Hc;
        first [ now apply IH1
              | change (v :: (rest ++ more))%list with ((v :: rest) ++ more)%list;
                now apply IH2 ]. }
  split; [exact A|]. split.
  - intros file l. now rewrite A.
  - intros l. now rewrite A.
Qed.

(** X20, at an output file given twice. *)
Lemma parse_arguments_app_witness :
  Rtsp.Main.complete ["--output"; "a.png"; "--display"] = true /\
  Rtsp.Main.outputFile
    (Rtsp.Main.parse_arguments
       (["--output"; "a.png"; "--display"] ++ ["--output"; "b.png"])
       Rtsp.Main.initial) = "b.png".
Proof.
  split; [reflexivity|].
  exact (proj1 (proj2 (parse_arguments_app ["--output"; "a.png"; "--display"]
                         eq_refl)) "b.png" Rtsp.Main.initial).
Defined.



(* ===================================================================== *)
(** ** The frame-capture tool: the name of a screenshot                   *)
(* ===================================================================== *)

Lemma append_split_length (a1 a2 r1 r2 : string) :
  String.length a1 = String.length a2 ->
  a1 ++ r1 = a2 ++ r2 -> a1 = a2 /\ r1 = r2.
Proof.
  revert a2; induction a1 as [|x a1 IH]; intros [|y a2]; cbn [String.length append];
    try discriminate.
  - intros _ E. now split.
  - intros L E. injection L as L. injection E as -> E.
    destruct (IH a2 L E) as [-> ->]. now split.
Qed.

Lemma timestamp_injective (r1 r2 : tm) :
  calendar_time r1 -> calendar_time r2 ->
  String.length (Rtsp.timestamp r1) = 15%nat /\
  (Rtsp.timestamp r1 = Rtsp.timestamp r2 -> r1 = r2).
Proof.
  intros (Hy1 & Hmo1 & Hd1 & Hh1 & Hmi1 & Hs1)
         (Hy2 & Hmo2 & Hd2 & Hh2 & Hmi2 & Hs2).
  pose proof (to_string_length4 _ Hy1) as Ly1.
  pose proof (to_string_length4 _ Hy2) as Ly2.
  pose proof (put2_length (tm_mon r1 + 1) ltac:(lia)) as Lmo1.
  pose proof (put2_length (tm_mon r2 + 1) ltac:(lia)) as Lmo2.
  pose proof (put2_length (tm_mday r1) ltac:(lia)) as Ld1.
  pose proof (put2_length (tm_mday r2) ltac:(lia)) as Ld2.
  pose proof (put2_length (tm_hour r1) ltac:(lia)) as Lh1.
  pose proof (put2_length (tm_hour r2) ltac:(lia)) as Lh2.
  pose proof (put2_length (tm_min r1) ltac:(lia)) as Lmi1.
  pose proof (put2_length (tm_min r2) ltac:(lia)) as Lmi2.
  pose proof (put2_length (tm_sec r1) ltac:(lia)) as Ls1.
  pose proof (put2_length (tm_sec r2) ltac:(lia)) as Ls2.
  split.
  - unfold Rtsp.timestamp. rewrite !length_append.
    rewrite Ly1, Lmo1, Ld1, Lh1, Lmi1, Ls1. reflexivity.
  - unfold Rtsp.timestamp. intros E.
    apply append_split_length in E as [Ey E]; [|congruence].
    apply append_split_length in E as [Emo E]; [|congruence].
    apply append_split_length in E as [Ed E]; [|congruence].
    apply (append_split_length "_" "_") in E as [_ E]; [|reflexivity].
    apply append_split_length in E as [Eh E]; [|congruence].
    rewrite <- (append_nil_r (put2 (tm_sec r1))) in E.
    rewrite <- (append_nil_r (put2 (tm_sec r2))) in E.
    apply append_split_length in E as [Emi E]; [|congruence].
    apply append_split_length in E as [Es _]; [|congruence].
    apply to_string_injective in Ey.
    apply put2_injective in Emo, Ed, Eh, Emi, Es; try lia.
    destruct r1, r2; cbn in *. f_equal; lia.
Qed.

Section ScreenshotName.

Variable localtime : Z -> tm.

(** X21.  The file name of a screenshot is made of the calendar reading
    that [std::localtime] gives for the instant of the save, to the second.
    For instants whose reading is in a year of four digits, the name has
    thirty characters, and two saves get the same name, so that the second
    overwrites the first, exactly when their local readings are the same:
    always when they fall in one second, and also for two different seconds
    that the time zone gives the same reading, as when clocks are set
    back. *)
Theorem filename_per_local_second (t1 t2 : Z) :
  calendar_time (localtime t1) -> calendar_time (localtime t2) ->
  String.length (Rtsp.filename localtime t1) = 30%nat /\
  (Rtsp.filename localtime t1 = Rtsp.filename localtime t2 <->
   localtime t1 = localtime t2) /\
  (t1 = t2 -> Rtsp.filename localtime t1 = Rtsp.filename localtime t2).
Proof.
  intros H1 H2.
  destruct (timestamp_injective _ _ H1 H2) as [L I].
  unfold Rtsp.filename. cbv zeta. split; [|split].
  - rewrite !length_append, L. reflexivity.
  - split; [|now intros ->].
    intros E.
    apply (append_split_length "screenshot_" "screenshot_") in E as [_ E];
      [|reflexivity].
    apply append_split_length in E as [E _].
    + now apply I.
    + rewrite L. now destruct (timestamp_injective _ _ H2 H2) as [-> _].
  - now intros ->.
Qed.

End ScreenshotName.

(** X21, in Europe/Berlin on the night of 2024-10-27, when the clocks went
    back from 03:00 to 02:00: the instants 1729989000 and 1729992600, an
    hour apart, both read 02:30:00 and share one file name. *)
Lemma filename_per_local_second_witness :
  calendar_time (berlin_autumn_2024 1729989000) /\
  calendar_time (berlin_autumn_2024 1729992600) /\
  berlin_autumn_2024 1729989000 = berlin_autumn_2024 1729992600 /\
  Rtsp.filename berlin_autumn_2024 1729989000 = "screenshot_20241027_023000.jpg" /\
  Rtsp.filename berlin_autumn_2024 1729989000 =
  Rtsp.filename berlin_autumn_2024 1729992600.
Proof.
  assert (H1 : calendar_time (berlin_autumn_2024 1729989000))
    by (vm_compute; repeat split; discriminate).
  assert (H2 : calendar_time (berlin_autumn_2024 1729992600))
    by (vm_compute; repeat split; discriminate).
  split; [exact H1|]. split; [exact H2|]. split; [reflexivity|].
  split; [reflexivity|].
  exact (proj2 (proj1 (proj2 (filename_per_local_second berlin_autumn_2024
                                1729989000 1729992600 H1 H2))) eq_refl).
Defined.
